(** * MCP Gateway front end: a shallow embedding and its properties

    The development follows the TypeScript sources of the gateway's
    React client:

    - [services/api.ts]      (class [ApiService]: interceptors,
                              [handleError], [validateOpenAPISpec]),
    - [services/keycloak.ts] (the mock authentication facade),
    - [hooks/useChat.ts]     (the chat hook),
    - [hooks/useAuth.tsx]    (the authentication context),
    - [components/ChatInterface.tsx] (the submit handler of the chat panel),
    - [components/ServiceRegistrationForm.tsx].

    The Python back end (endpoint registry, agent loop) is documented in
    the repository but its code is not part of the sources; the two
    modules at the end model it from the specification. *)

From Stdlib Require Import ZArith Ascii Floats.
From stdpp Require Import base tactics option list strings pretty gmap.
From Equations Require Import Equations.

Local Open Scope Z_scope.
Local Set Warnings "-register-all".

(** ** JavaScript strings

    A JavaScript string is a sequence of UTF-16 code units.  Literals of
    the source are ASCII and are written with [lit]. *)

Abbreviation jsstring := (list N).

Definition lit (s : string) : jsstring :=
  N_of_ascii <$> String.list_ascii_of_string s.

(** [WhiteSpace] and [LineTerminator] code points of ECMAScript: the
    characters [String.prototype.trim] strips. All lie in the BMP, so
    the test is on a single code unit. *)
Definition is_js_space (c : N) : bool :=
  (   (c =? 0x0009) || (c =? 0x000A) || (c =? 0x000B) || (c =? 0x000C)
   || (c =? 0x000D) || (c =? 0x0020) || (c =? 0x00A0) || (c =? 0x1680)
   || ((0x2000 <=? c) && (c <=? 0x200A))
   || (c =? 0x2028) || (c =? 0x2029) || (c =? 0x202F) || (c =? 0x205F)
   || (c =? 0x3000) || (c =? 0xFEFF))%N.

Fixpoint trim_start (s : jsstring) : jsstring :=
  match s with
  | c :: s' => if is_js_space c then trim_start s' else s
  | [] => []
  end.

(** [s.trim()] *)
Definition trim (s : jsstring) : jsstring :=
  reverse (trim_start (reverse (trim_start s))).

(** ** JavaScript values

    The values that flow through the client as [any]: what [JSON.parse]
    and the HTTP layer produce, plus [undefined] for absent properties.
    Numbers are IEEE 754 doubles.  An object is its list of own
    properties; the first binding of a key is the one the object holds. *)

Inductive value : Type :=
  | VUndefined
  | VNull
  | VBool (b : bool)
  | VNum (x : float)
  | VStr (s : jsstring)
  | VArr (items : list value)
  | VObj (props : list (jsstring * value)).

Inductive jstype := TUndefined | TObject | TBoolean | TNumber | TString.

Global Instance jstype_eq_dec : EqDecision jstype.
Proof. solve_decision. Defined.

(** [typeof v] *)
Definition typeof (v : value) : jstype :=
  match v with
  | VUndefined => TUndefined
  | VNull | VArr _ | VObj _ => TObject
  | VBool _ => TBoolean
  | VNum _ => TNumber
  | VStr _ => TString
  end.

(** [ToBoolean]: [undefined], [null], [false], [0], [-0], [NaN] and the
    empty string are falsy, everything else is truthy. *)
Definition truthy (v : value) : bool :=
  match v with
  | VUndefined | VNull => false
  | VBool b => b
  | VNum x => negb (PrimFloat.eqb x 0%float || PrimFloat.is_nan x)
  | VStr s => negb (bool_decide (s = []))
  | VArr _ | VObj _ => true
  end.

Fixpoint own_property (props : list (jsstring * value)) (k : jsstring)
  : value :=
  match props with
  | [] => VUndefined
  | (k', v) :: rest => if decide (k' = k) then v else own_property rest k
  end.

(** [v.k] for a property name [k] that is neither an array index nor a
    member inherited from a built-in prototype (the names read by the
    client, [openapi], [info], [title], [version], [paths], [detail] and
    [message], are of that kind).  Reading a property of [undefined] or
    [null] throws a [TypeError]: [None]. *)
Definition get (v : value) (k : jsstring) : option value :=
  match v with
  | VUndefined | VNull => None
  | VObj props => Some (own_property props k)
  | VBool _ | VNum _ | VStr _ | VArr _ => Some VUndefined
  end.

(** [v?.k] *)
Definition get_opt (v : value) (k : jsstring) : value :=
  default VUndefined (get v k).

(** [a && b]: [b] is evaluated only when [a] is truthy. *)
Definition js_and (a : option value) (b : option value) : option value :=
  v ← a; if truthy v then b else Some v.

(** [a || b] *)
Definition js_or (a b : value) : value := if truthy a then a else b.

Infix "&&>" := js_and (at level 41, left associativity).

(** ** The mock authentication facade ([services/keycloak.ts]) *)

Module Keycloak.

(** The module-level variables [mockAuthenticated] and [mockToken]
    ([mockUser] is never assigned). *)
Record state : Type := State {
  mockAuthenticated : bool;
  mockToken : jsstring;
}.

Definition initial : state :=
  {| mockAuthenticated := true; mockToken := lit "mock-jwt-token" |}.

Definition login (s : state) : state :=
  {| mockAuthenticated := true; mockToken := mockToken s |}.

Definition logout (s : state) : state :=
  {| mockAuthenticated := false; mockToken := [] |}.

(** [string | undefined]: [None] is [undefined]. *)
Definition getToken (s : state) : option jsstring :=
  if mockAuthenticated s then Some (mockToken s) else None.

Definition isAuthenticated (s : state) : bool := mockAuthenticated s.

(** [getUserInfo() !== null] *)
Definition hasUserInfo (s : state) : bool := mockAuthenticated s.

(** [await initKeycloak()] *)
Definition initKeycloak (s : state) : bool := mockAuthenticated s.

(** [await updateToken()]: the mock only logs and answers [true]. *)
Definition updateToken (s : state) : bool := true.

(** The exported operations; only [login] and [logout] assign the
    module variables. *)
Inductive op := Init | Login | Logout | GetToken | IsAuthenticated
              | GetUserInfo | UpdateToken.

Definition run (s : state) (o : op) : state :=
  match o with
  | Login => login s
  | Logout => logout s
  | Init | GetToken | IsAuthenticated | GetUserInfo | UpdateToken => s
  end.

Definition run_all (ops : list op) : state := foldl run initial ops.

(** The token string of a truthy [getToken()] result. *)
Definition has_token (s : state) : bool :=
  match getToken s with
  | Some t => negb (bool_decide (t = []))
  | None => false
  end.

End Keycloak.

(** ** The HTTP client ([services/api.ts]) *)

Module Api.

Inductive http_method := GET | POST | DELETE.

(** The axios request configuration as far as the client touches it:
    [headers.Authorization] and the ad-hoc [_retry] flag, which axios
    carries over when a configuration is passed to the instance again. *)
Record RequestConfig : Type := Request {
  url : jsstring;
  method : http_method;
  body : value;
  Authorization : option jsstring;
  _retry : bool;
}.

(** [error.response] *)
Record ErrorResponse : Type := { resp_status : Z; resp_data : value }.

(** The error object axios rejects with.  [err_request] tells whether
    [error.request] is set. *)
Record AxiosError : Type := {
  err_config : RequestConfig;
  err_response : option ErrorResponse;
  err_request : bool;
  err_message : jsstring;
}.

(** [ApiError] of [../types]: [status] and [details] are optional. *)
Record ApiError : Type := {
  message : value;
  status : option Z;
  details : option value;
}.

(** What a caller of the client finds in its [catch]: the error object
    of axios itself, or the plain object built by [handleError]. *)
Inductive rejection :=
  | RawError (e : AxiosError)
  | Structured (e : ApiError).

Definition handleError (error : AxiosError) : ApiError :=
  match err_response error with
  | Some r =>
      {| message :=
           js_or (js_or (get_opt (resp_data r) (lit "detail"))
                        (get_opt (resp_data r) (lit "message")))
                 (VStr (lit "Server error"));
         status := Some (resp_status r);
         details := Some (resp_data r) |}
  | None =>
      if err_request error then
        {| message := VStr (lit "Network error - please check your connection");
           status := Some 0;
           details := None |}
      else
        {| message := js_or (VStr (err_message error))
                            (VStr (lit "An unexpected error occurred"));
           status := None;
           details := None |}
  end.

(** [e instanceof Error ? e.message : fallback]: the error of axios is
    an [Error], the object built by [handleError] is not. *)
Definition error_text (e : rejection) (fallback : jsstring) : jsstring :=
  match e with
  | RawError err => err_message err
  | Structured _ => fallback
  end.

(** [validateOpenAPISpec(spec)]: the value of the [&&] chain, or
    [None] should a property access throw. *)
Definition validateOpenAPISpec_value (spec : value) : option value :=
  Some spec
  &&> Some (VBool (bool_decide (typeof spec = TObject)))
  &&> get spec (lit "openapi")
  &&> get spec (lit "info")
  &&> (info ← get spec (lit "info"); get info (lit "title"))
  &&> (info ← get spec (lit "info"); get info (lit "version"))
  &&> get spec (lit "paths")
  &&> (paths ← get spec (lit "paths");
       Some (VBool (bool_decide (typeof paths = TObject)))).

(** The outcome as the callers use it, [if (validateOpenAPISpec(spec))]. *)
Definition validateOpenAPISpec (spec : value) : bool :=
  match validateOpenAPISpec_value spec with
  | Some v => truthy v
  | None => false
  end.

(** The minimum shape in the words of the specification: a title, a
    version, and at least one path.  It is stated next to
    [validateOpenAPISpec] to be compared with it. *)
Definition spec_minimum_shape (spec : value) : bool :=
  truthy (get_opt (get_opt spec (lit "info")) (lit "title"))
  && truthy (get_opt (get_opt spec (lit "info")) (lit "version"))
  && match get_opt spec (lit "paths") with
     | VObj (_ :: _) => true
     | _ => false
     end.

(** *** The axios instance with its two interceptors *)

(** What the transport answers to one dispatched request: a response
    axios resolves with (payload of type [T]), or a failure, with the
    error response when the server answered. *)
Inductive outcome (T : Type) :=
  | Resolved (st : Z) (data : T)
  | Failed (resp : option ErrorResponse) (req : bool) (msg : jsstring).
Arguments Resolved {T} st data.
Arguments Failed {T} resp req msg.

Inductive result (T : Type) :=
  | Fulfilled (st : Z) (data : T)
  | Rejected (r : rejection).
Arguments Fulfilled {T} st data.
Arguments Rejected {T} r.

(** The state the client reads and writes: the variables of
    [keycloak.ts] and the requests put on the wire so far. *)
Record World : Type := {
  auth : Keycloak.state;
  sent : list RequestConfig;
}.

Definition set_Authorization (c : RequestConfig) (h : jsstring)
  : RequestConfig :=
  {| url := url c; method := method c; body := body c;
     Authorization := Some h; _retry := _retry c |}.

Definition set_retry (c : RequestConfig) : RequestConfig :=
  {| url := url c; method := method c; body := body c;
     Authorization := Authorization c; _retry := true |}.

(** [const token = getToken(); if (token) ...]: the token when truthy. *)
Definition truthy_token (s : Keycloak.state) : option jsstring :=
  match Keycloak.getToken s with
  | Some t => if truthy (VStr t) then Some t else None
  | None => None
  end.

Definition bearer (token : jsstring) : jsstring := lit "Bearer " ++ token.

(** The request interceptor. *)
Definition request_interceptor (s : Keycloak.state) (config : RequestConfig)
  : RequestConfig :=
  match truthy_token s with
  | Some token => set_Authorization config (bearer token)
  | None => config
  end.

(** [error.response?.status === 401] *)
Definition is_401 (resp : option ErrorResponse) : bool :=
  match resp with
  | Some r => bool_decide (resp_status r = 401)
  | None => false
  end.

(** The number of automatic re-issues a configuration still allows. *)
Definition retry_budget (c : RequestConfig) : nat :=
  if _retry c then 0%nat else 1%nat.

Section Client.
Context {T : Type}.
(** [network k c]: the fate of request [c] when it is the [k]-th
    request dispatched. *)
Variable network : nat → RequestConfig → outcome T.

Definition dispatched (w : World) (c : RequestConfig) : World :=
  {| auth := auth w; sent := sent w ++ [c] |}.

(** [this.client(config)]: request interceptor, dispatch, response
    interceptor.  The error handler of the response interceptor is
    the [Failed] branch. *)
Equations? client (config : RequestConfig) (w : World)
  : result T * World by wf (retry_budget config) lt :=
  client config w
    with network (length (sent w)) (request_interceptor (auth w) config) := {
    | Resolved st d =>
        (Fulfilled st d, dispatched w (request_interceptor (auth w) config))
    | Failed resp req msg
        with decide (is_401 resp
                     && negb (_retry (request_interceptor (auth w) config))
                     = true) := {
      | left _
          with (if Keycloak.updateToken (auth w)
                then truthy_token (auth w) else None) := {
        | Some token =>
            client (set_Authorization
                      (set_retry (request_interceptor (auth w) config))
                      (bearer token))
                   (dispatched w (request_interceptor (auth w) config))
        | None =>
            (Rejected (RawError
               {| err_config := set_retry (request_interceptor (auth w) config);
                  err_response := resp; err_request := req;
                  err_message := msg |}),
             {| auth := Keycloak.login (auth w);
                sent := sent w ++ [request_interceptor (auth w) config] |}) }
      | right _ =>
          (Rejected (Structured (handleError
             {| err_config := request_interceptor (auth w) config;
                err_response := resp; err_request := req;
                err_message := msg |})),
           dispatched w (request_interceptor (auth w) config)) } }.
Proof.
  apply andb_prop in e as [_ Hfresh].
  apply negb_true_iff in Hfresh.
  unfold retry_budget, request_interceptor in *.
  destruct (truthy_token (auth w)); simpl in *; rewrite Hfresh; simpl; lia.
Qed.

(** A fresh configuration as the methods of [ApiService] build it. *)
Definition fresh (m : http_method) (u : jsstring) (payload : value)
  : RequestConfig :=
  {| url := u; method := m; body := payload;
     Authorization := None; _retry := false |}.

(** [this.client.post(url, payload)] followed by [response.data]. *)
Definition post (u : jsstring) (payload : value) (w : World)
  : (T + rejection) * World :=
  match client (fresh POST u payload) w with
  | (Fulfilled _ d, w') => (inl d, w')
  | (Rejected r, w') => (inr r, w')
  end.

End Client.

End Api.

(** ** The chat hook ([hooks/useChat.ts]) *)

Module Chat.

(** [ChatMessage] and [ChatResponse] of [../types]. *)
Record ChatMessage : Type := { message : jsstring; session_id : jsstring }.

Record ChatResponse : Type := {
  response : jsstring;
  tools_used : list jsstring;
  resp_session_id : jsstring;
}.

Inductive sender_kind := user | assistant.

Global Instance sender_kind_eq_dec : EqDecision sender_kind.
Proof. solve_decision. Defined.

(** An element of [ChatContextType['messages']]; [msg_tools_used] is
    the optional [tools_used] field. *)
Record Message : Type := {
  id : jsstring;
  content : jsstring;
  sender : sender_kind;
  timestamp : Z;
  msg_tools_used : option (list jsstring);
}.

(** The two [useState] cells, the number of clock readings taken so
    far, and the state of the HTTP client. *)
Record World : Type := {
  messages : list Message;
  isLoading : bool;
  reads : nat;
  api : Api.World;
}.

(** The request body axios serialises for a [ChatMessage]. *)
Definition chat_payload (m : ChatMessage) : value :=
  VObj [(lit "message", VStr (message m));
        (lit "session_id", VStr (session_id m))].

(** Computations of the hook: state passing over [World]. *)
Definition hook (A : Type) : Type := World → A * World.

Global Instance hook_ret : MRet hook := λ A a w, (a, w).
Global Instance hook_bind : MBind hook :=
  λ A B f m w, let '(a, w') := m w in f a w'.

Definition setMessages (f : list Message → list Message) : hook unit :=
  λ w, (tt, {| messages := f (messages w); isLoading := isLoading w;
               reads := reads w; api := api w |}).

Definition setIsLoading (b : bool) : hook unit :=
  λ w, (tt, {| messages := messages w; isLoading := b;
               reads := reads w; api := api w |}).

Section Hook.
(** [clock k]: the [k]-th reading of the system clock, in ms. *)
Variable clock : nat → Z.
Variable network : nat → Api.RequestConfig → Api.outcome ChatResponse.

(** [Date.now()], and the time value of [new Date()]. *)
Definition now : hook Z :=
  λ w, (clock (reads w),
        {| messages := messages w; isLoading := isLoading w;
           reads := S (reads w); api := api w |}).

(** [apiService.sendChatMessage(message)] *)
Definition sendChatMessage (m : ChatMessage)
  : hook (ChatResponse + Api.rejection) :=
  λ w, let '(r, a) := Api.post network (lit "/chat") (chat_payload m) (api w) in
       (r, {| messages := messages w; isLoading := isLoading w;
              reads := reads w; api := a |}).

Definition sendMessage (msg : jsstring) : hook unit :=
  if negb (truthy (VStr (trim msg))) then mret tt
  else
    t_id ← now;
    t_stamp ← now;
    let userMessage :=
      {| id := lit (pretty t_id); content := msg; sender := user;
         timestamp := t_stamp; msg_tools_used := None |} in
    setMessages (λ prev, prev ++ [userMessage]);;
    setIsLoading true;;
    t_session ← now;
    r ← sendChatMessage
          {| message := msg;
             session_id := lit "session_" ++ lit (pretty t_session) |};
    match r with
    | inl resp =>
        t_id' ← now;
        t_stamp' ← now;
        let assistantMessage :=
          {| id := lit (pretty (t_id' + 1)); content := response resp;
             sender := assistant; timestamp := t_stamp';
             msg_tools_used := Some (tools_used resp) |} in
        setMessages (λ prev, prev ++ [assistantMessage])
    | inr error =>
        t_id' ← now;
        t_stamp' ← now;
        let errorMessage :=
          {| id := lit (pretty (t_id' + 1));
             content := lit "Error: "
                        ++ Api.error_text error (lit "Failed to send message");
             sender := assistant; timestamp := t_stamp';
             msg_tools_used := None |} in
        setMessages (λ prev, prev ++ [errorMessage])
    end;;
    setIsLoading false.

Definition clearMessages : hook unit := setMessages (λ _, []).

(** The chat requests put on the wire, oldest first. *)
Definition chat_requests (w : World) : list Api.RequestConfig :=
  Api.sent (api w).

End Hook.

(** The hook as [useChat()] first returns it, over a client that has
    sent nothing yet. *)
Definition initial (a : Keycloak.state) : World :=
  {| messages := []; isLoading := false; reads := 0;
     api := {| Api.auth := a; Api.sent := [] |} |}.

End Chat.

(** ** The registration form ([components/ServiceRegistrationForm.tsx]) *)

Module Form.

Inductive upload_kind := file | text.

(** [ServiceFormData]; [openapi_spec] is [OpenAPISpec | null]. *)
Record ServiceFormData : Type := {
  name : jsstring;
  base_url : jsstring;
  openapi_spec : option value;
  upload_method : upload_kind;
  openapi_text : jsstring;
}.

(** [ServiceConfig], the body of [POST /register-service]. *)
Record ServiceConfig : Type := {
  cfg_name : jsstring;
  cfg_base_url : jsstring;
  cfg_openapi_spec : value;
}.

Definition config_payload (c : ServiceConfig) : value :=
  VObj [(lit "name", VStr (cfg_name c));
        (lit "base_url", VStr (cfg_base_url c));
        (lit "openapi_spec", cfg_openapi_spec c)].

(** The component state, the client, and the number of [onSuccess]
    calls made. *)
Record World : Type := {
  formData : ServiceFormData;
  errors : gmap jsstring jsstring;
  isSubmitting : bool;
  api : Api.World;
  successes : nat;
}.

Definition setFormData (f : ServiceFormData → ServiceFormData) (w : World)
  : World :=
  {| formData := f (formData w); errors := errors w;
     isSubmitting := isSubmitting w; api := api w;
     successes := successes w |}.

Definition setErrors (f : gmap jsstring jsstring → gmap jsstring jsstring)
  (w : World) : World :=
  {| formData := formData w; errors := f (errors w);
     isSubmitting := isSubmitting w; api := api w;
     successes := successes w |}.

Definition setIsSubmitting (b : bool) (w : World) : World :=
  {| formData := formData w; errors := errors w;
     isSubmitting := b; api := api w; successes := successes w |}.

Definition with_spec (spec : option value) (d : ServiceFormData)
  : ServiceFormData :=
  {| name := name d; base_url := base_url d; openapi_spec := spec;
     upload_method := upload_method d; openapi_text := openapi_text d |}.

(** [!formData.openapi_spec] *)
Definition spec_missing (d : ServiceFormData) : bool :=
  match openapi_spec d with
  | Some spec => negb (truthy spec)
  | None => true
  end.

Section Component.
(** [new URL(s)] returns (rather than throws). *)
Variable url_parses : jsstring → bool.
(** [JSON.parse(s)]; [None] is a [SyntaxError]. *)
Variable json_parse : jsstring → option value.
Variable network : nat → Api.RequestConfig → Api.outcome value.

(** The [newErrors] object built by [validateForm]. *)
Definition newErrors (d : ServiceFormData) : gmap jsstring jsstring :=
  let e0 : gmap jsstring jsstring := ∅ in
  let e1 :=
    if negb (truthy (VStr (trim (name d))))
    then <[lit "name" := lit "Service name is required"]> e0 else e0 in
  let e2 :=
    if negb (truthy (VStr (trim (base_url d))))
    then <[lit "base_url" := lit "Base URL is required"]> e1
    else if url_parses (base_url d) then e1
         else <[lit "base_url" := lit "Please enter a valid URL"]> e1 in
  if spec_missing d then
    match upload_method d with
    | file => <[lit "openapi_spec" :=
                  lit "Please upload an OpenAPI specification file"]> e2
    | text => <[lit "openapi_text" :=
                  lit "Please provide OpenAPI specification text"]> e2
    end
  else e2.

(** [validateForm()]: stores [newErrors] and tells whether it has
    no key. *)
Definition validateForm (w : World) : bool * World :=
  let e := newErrors (formData w) in
  (bool_decide (size e = 0%nat), setErrors (λ _, e) w).

(** [handleFileSelect(file)], where the file's text is [content]
    ([None] when the reader fails). *)
Definition handleFileSelect (content : option jsstring) (w : World) : World :=
  match content with
  | Some c =>
      match json_parse c with
      | Some spec =>
          if Api.validateOpenAPISpec spec then
            setErrors (λ prev, <[lit "openapi_spec" := []]> prev)
              (setFormData (with_spec (Some spec)) w)
          else
            setErrors (λ prev, <[lit "openapi_spec" :=
                                   lit "Invalid OpenAPI specification"]> prev) w
      | None =>
          setErrors (λ prev, <[lit "openapi_spec" := lit "Invalid JSON file"]> prev) w
      end
  | None =>
      setErrors (λ prev, <[lit "openapi_spec" := lit "Failed to read file"]> prev) w
  end.

Definition handleTextChange (t : jsstring) (w : World) : World :=
  let w1 :=
    setFormData (λ prev,
      {| name := name prev; base_url := base_url prev;
         openapi_spec := openapi_spec prev;
         upload_method := upload_method prev; openapi_text := t |}) w in
  if truthy (VStr (trim t)) then
    match json_parse t with
    | Some spec =>
        if Api.validateOpenAPISpec spec then
          setErrors (λ prev, <[lit "openapi_text" := []]> prev)
            (setFormData (with_spec (Some spec)) w1)
        else
          setErrors (λ prev, <[lit "openapi_text" :=
                                 lit "Invalid OpenAPI specification"]> prev) w1
    | None =>
        setErrors (λ prev, <[lit "openapi_text" := lit "Invalid JSON format"]> prev) w1
    end
  else w1.

(** The [onChange] handler shared by the two radio buttons. *)
Definition chooseMethod (m : upload_kind) (w : World) : World :=
  setFormData (λ prev,
    {| name := name prev; base_url := base_url prev; openapi_spec := None;
       upload_method := m; openapi_text := [] |}) w.

Definition changeName (s : jsstring) (w : World) : World :=
  setFormData (λ prev,
    {| name := s; base_url := base_url prev;
       openapi_spec := openapi_spec prev;
       upload_method := upload_method prev;
       openapi_text := openapi_text prev |}) w.

Definition changeBaseUrl (s : jsstring) (w : World) : World :=
  setFormData (λ prev,
    {| name := name prev; base_url := s;
       openapi_spec := openapi_spec prev;
       upload_method := upload_method prev;
       openapi_text := openapi_text prev |}) w.

(** [apiService.registerService(config)] *)
Definition registerService (c : ServiceConfig) (w : World)
  : (value + Api.rejection) * World :=
  let '(r, a) := Api.post network (lit "/register-service")
                   (config_payload c) (api w) in
  (r, {| formData := formData w; errors := errors w;
         isSubmitting := isSubmitting w; api := a;
         successes := successes w |}).

Definition onSuccess (w : World) : World :=
  {| formData := formData w; errors := errors w;
     isSubmitting := isSubmitting w; api := api w;
     successes := S (successes w) |}.

Definition handleSubmit (w : World) : World :=
  let '(ok, w1) := validateForm w in
  if negb ok then w1
  else
    let w2 := setIsSubmitting true w1 in
    let config :=
      {| cfg_name := trim (name (formData w));
         cfg_base_url := trim (base_url (formData w));
         cfg_openapi_spec := default VNull (openapi_spec (formData w)) |} in
    let '(r, w3) := registerService config w2 in
    let w4 :=
      match r with
      | inl resp => if truthy resp then onSuccess w3 else w3
      | inr error =>
          setErrors (λ prev,
            <[lit "submit" :=
                Api.error_text error (lit "Failed to register service")]>
            prev) w3
      end in
    setIsSubmitting false w4.

(** What happens to a mounted form. *)
Inductive event :=
  | ChangeName (s : jsstring)
  | ChangeBaseUrl (s : jsstring)
  | ChooseMethod (m : upload_kind)
  | FileSelected (content : option jsstring)
  | TextChanged (t : jsstring)
  | Submit.

Definition handle (w : World) (e : event) : World :=
  match e with
  | ChangeName s => changeName s w
  | ChangeBaseUrl s => changeBaseUrl s w
  | ChooseMethod m => chooseMethod m w
  | FileSelected c => handleFileSelect c w
  | TextChanged t => handleTextChange t w
  | Submit => handleSubmit w
  end.


(** A registration request built from a form that passed the checks. *)
Definition checked_request (c : Api.RequestConfig) : Prop :=
  ∃ n b spec,
    Api.body c = config_payload {| cfg_name := trim n; cfg_base_url := trim b;
                                   cfg_openapi_spec := spec |}
    ∧ Api.url c = lit "/register-service"
    ∧ trim n ≠ []
    ∧ url_parses b = true
    ∧ Api.validateOpenAPISpec spec = true.

(** What every reachable form satisfies: the stored description, if
    any, passed [validateOpenAPISpec], and so did the one in every
    request sent. *)
Definition form_invariant (w : World) : Prop :=
  (∀ spec, openapi_spec (formData w) = Some spec →
           Api.validateOpenAPISpec spec = true)
  ∧ Forall checked_request (Api.sent (api w)).

End Component.

(** The form as first rendered. *)
Definition initial (a : Api.World) : World :=
  {| formData := {| name := []; base_url := []; openapi_spec := None;
                    upload_method := file; openapi_text := [] |};
     errors := ∅; isSubmitting := false; api := a; successes := 0 |}.

End Form.

(** ** The endpoint registry of the gateway *)

Module Registry.






Section Operations.
(** The Spec Translator: the number of operations derived from a
    description, [None] for a [SpecError]. *)
Variable translate : value → option nat.
(** Whether the endpoint bound to an address reports Running before
    the start-up wait times out. *)
Variable starts : N → bool.





End Operations.




End Registry.

(** ** The orchestration loop of the gateway *)

Module Orchestration.

(** Modelled from the spec: a tool call proposed by the model. *)
Record ToolCall : Type := { toolName : jsstring; arguments : value }.

(** Modelled from the spec: [ToolInvocationRecord], a result or an
    invocation error. *)
Record ToolInvocationRecord : Type := {
  rec_call : ToolCall;
  rec_result : value + jsstring;
}.

(** Modelled from the spec: what the language model returns in a
    Think step. *)
Inductive decision :=
  | FinalAnswer (answer : jsstring)
  | Propose (calls : list ToolCall).

(** Modelled from the spec: the states of the loop. *)
Inductive phase :=
  | Start
  | Think
  | Act (calls : list ToolCall)
  | Observe (results : list ToolInvocationRecord)
  | Finish (answer : jsstring) (forced : bool).

(** Modelled from the spec: a turn in progress, with the number of
    iterations begun and the scratchpad of observations. *)
Record turn : Type := {
  at_phase : phase;
  iterations : nat;
  scratchpad : list ToolInvocationRecord;
}.

(** The agent settings of [CONFIGURATION.md]. *)
Record AgentConfig : Type := { AGENT_MAX_ITERATIONS : nat }.

(** The defaults listed in [CONFIGURATION.md]. *)
Definition default_config : AgentConfig := {| AGENT_MAX_ITERATIONS := 15 |}.

Definition finished (t : turn) : bool :=
  match at_phase t with Finish _ _ => true | _ => false end.

Definition acting (t : turn) : bool :=
  match at_phase t with Act _ => true | _ => false end.

Section Loop.
Variable cfg : AgentConfig.
(** The language-model capability, over the scratchpad of
    observations (transcript and catalog are fixed during a turn). *)
Variable model : list ToolInvocationRecord → decision.
(** The answer synthesised when the turn is cut short. *)
Variable forced_answer : list ToolInvocationRecord → jsstring.
(** [SessionManager.invoke] *)
Variable invoke : ToolCall → value + jsstring.

(** Modelled from the spec: one transition of the Orchestration Loop
    (the agent of the Python back end, which is not in the sources),
    Start, Think, any number of Act and Observe, Finish; a Think
    step that finds the iteration cap used up goes to Finish(forced). *)
Definition step (t : turn) : turn :=
  match at_phase t with
  | Start =>
      {| at_phase := Think; iterations := iterations t;
         scratchpad := scratchpad t |}
  | Think =>
      if decide (AGENT_MAX_ITERATIONS cfg ≤ iterations t)%nat then
        {| at_phase := Finish (forced_answer (scratchpad t)) true;
           iterations := iterations t; scratchpad := scratchpad t |}
      else
        match model (scratchpad t) with
        | FinalAnswer a =>
            {| at_phase := Finish a false; iterations := iterations t;
               scratchpad := scratchpad t |}
        | Propose calls =>
            {| at_phase := Act calls; iterations := S (iterations t);
               scratchpad := scratchpad t |}
        end
  | Act calls =>
      {| at_phase :=
           Observe ((λ c, {| rec_call := c; rec_result := invoke c |}) <$> calls);
         iterations := iterations t; scratchpad := scratchpad t |}
  | Observe results =>
      {| at_phase := Think; iterations := iterations t;
         scratchpad := scratchpad t ++ results |}
  | Finish _ _ => t
  end.

(** Modelled from the spec: a turn begins in Start with nothing observed. *)
Definition start : turn :=
  {| at_phase := Start; iterations := 0; scratchpad := [] |}.

(** Modelled from the spec: the turn after [n] transitions. *)
Definition run (n : nat) : turn := Nat.iter n step start.

(** Modelled from the spec: the states a turn goes through in its
    first [n] transitions. *)
Definition trace (n : nat) : list turn := run <$> seq 0 (S n).

(** A bound on the transitions a turn still makes before Finish. *)
Definition steps_left (t : turn) : nat :=
  let spare := (AGENT_MAX_ITERATIONS cfg - iterations t)%nat in
  match at_phase t with
  | Start => 3 * spare + 2
  | Think => 3 * spare + 1
  | Act _ => 3 * spare + 3
  | Observe _ => 3 * spare + 2
  | Finish _ _ => 0
  end%nat.

(** Modelled from the spec: the iterations run, one per Act phase
    entered. *)
Definition iterations_run (n : nat) : nat :=
  length (filter (λ t, acting t = true) (trace n)).

End Loop.

End Orchestration.

(** ** The remaining methods of [ApiService] ([services/api.ts]) *)

Module ApiService.

Section Methods.
Context {T : Type}.
Variable network : nat → Api.RequestConfig → Api.outcome T.

(** [this.client.get(url)], [this.client.delete(url)] and
    [this.client.post(url, data)], each followed by [response.data]. *)
Definition request (m : Api.http_method) (u : jsstring) (payload : value)
  (w : Api.World) : (T + Api.rejection) * Api.World :=
  match Api.client network (Api.fresh m u payload) w with
  | (Api.Fulfilled _ d, w') => (inl d, w')
  | (Api.Rejected r, w') => (inr r, w')
  end.

Definition healthCheck : Api.World → (T + Api.rejection) * Api.World :=
  request Api.GET (lit "/health") VUndefined.

Definition getServices : Api.World → (T + Api.rejection) * Api.World :=
  request Api.GET (lit "/services") VUndefined.

(** The service name goes into the path as it is. *)
Definition deleteService (serviceName : jsstring)
  : Api.World → (T + Api.rejection) * Api.World :=
  request Api.DELETE (lit "/delete-service/" ++ serviceName) VUndefined.

End Methods.

End ApiService.

(** ** The authentication context ([hooks/useAuth.tsx]) *)

Module AuthProvider.

(** [User] of [../types]. *)
Record User : Type := {
  id : jsstring;
  username : jsstring;
  email : jsstring;
  firstName : option jsstring;
  lastName : option jsstring;
  roles : list jsstring;
}.

(** [mockUser] of [keycloak.ts], which is never assigned. *)
Definition mockUser : User :=
  {| id := lit "user-123"; username := lit "demo-user";
     email := lit "demo@example.com"; firstName := Some (lit "Demo");
     lastName := Some (lit "User"); roles := [lit "user"] |}.

(** [getUserInfo()]; [None] is [null]. *)
Definition getUserInfo (k : Keycloak.state) : option User :=
  if Keycloak.mockAuthenticated k then Some mockUser else None.

(** The three [useState] cells of the provider, and the variables of
    [keycloak.ts], which outlive the component. *)
Record state : Type := {
  user : option User;
  isLoading : bool;
  token : option jsstring;
  keycloak : Keycloak.state;
}.

(** [AuthContextType] as a render computes it. *)
Record context : Type := {
  ctx_user : option User;
  ctx_isAuthenticated : bool;
  ctx_isLoading : bool;
  ctx_token : option jsstring;
}.

Definition contextValue (s : state) : context :=
  {| ctx_user := user s;
     ctx_isAuthenticated := Keycloak.isAuthenticated (keycloak s);
     ctx_isLoading := isLoading s;
     ctx_token := token s |}.

(** The provider as it mounts: the initial cells, and [initAuth]
    started ([setIsLoading(true)]). *)
Definition mount (k : Keycloak.state) : state :=
  {| user := None; isLoading := true; token := None; keycloak := k |}.

(** [authToken || null] *)
Definition token_or_null (t : option jsstring) : option jsstring :=
  match t with
  | Some t' => if truthy (VStr t') then Some t' else None
  | None => None
  end.

(** [initAuth] from the point where [await initKeycloak()] returns. *)
Definition initAuth_resumed (s : state) : state :=
  let k := keycloak s in
  if Keycloak.initKeycloak k then
    {| user := getUserInfo k; isLoading := false;
       token := token_or_null (Keycloak.getToken k); keycloak := k |}
  else
    {| user := user s; isLoading := false; token := token s; keycloak := k |}.

Definition handleLogin (s : state) : state :=
  {| user := user s; isLoading := isLoading s; token := token s;
     keycloak := Keycloak.login (keycloak s) |}.

Definition handleLogout (s : state) : state :=
  {| user := None; isLoading := isLoading s; token := None;
     keycloak := Keycloak.logout (keycloak s) |}.

(** What happens to the provider: it is mounted again, its pending
    [initAuth] resumes, or a consumer calls [login] or [logout]. *)
Inductive event := Remount | InitResumed | Login | Logout.

Definition handle (s : state) (e : event) : state :=
  match e with
  | Remount => mount (keycloak s)
  | InitResumed => initAuth_resumed s
  | Login => handleLogin s
  | Logout => handleLogout s
  end.

(** The provider after a series of events, from its first mount over
    the freshly loaded [keycloak.ts]. *)
Definition run (events : list event) : state :=
  foldl handle (mount Keycloak.initial) events.

End AuthProvider.

(** ** The chat panel ([components/ChatInterface.tsx]) *)

Module ChatInterface.

(** The input cell and the state of [useChat()]. *)
Record state : Type := {
  inputMessage : jsstring;
  chat : Chat.World;
}.

Section Component.
Variable clock : nat → Z.
Variable network : nat → Api.RequestConfig → Api.outcome Chat.ChatResponse.

Definition setInputMessage (v : jsstring) (s : state) : state :=
  {| inputMessage := v; chat := chat s |}.

Definition handleSubmit (s : state) : state :=
  if negb (truthy (VStr (trim (inputMessage s)))) || Chat.isLoading (chat s)
  then s
  else
    let message := trim (inputMessage s) in
    {| inputMessage := [];
       chat := (Chat.sendMessage clock network message (chat s)).2 |}.

End Component.

End ChatInterface.

(** ** Concrete inputs *)

Module Examples.

(** A description with a title and a version and an empty [paths]. *)
Definition spec_without_paths : value :=
  VObj [(lit "openapi", VStr (lit "3.0.0"));
        (lit "info", VObj [(lit "title", VStr (lit "Users"));
                           (lit "version", VStr (lit "1.0"))]);
        (lit "paths", VObj [])].


Definition not_authenticated : Api.ErrorResponse :=
  {| Api.resp_status := 401;
     Api.resp_data := VObj [(lit "detail", VStr (lit "Not authenticated"))] |}.

(** A gateway that answers every request with 401. *)
Definition unauthorized {T : Type} : nat → Api.RequestConfig → Api.outcome T :=
  λ _ _, Api.Failed (Some not_authenticated) true
                    (lit "Request failed with status code 401").

Definition fresh_client : Api.World :=
  {| Api.auth := Keycloak.initial; Api.sent := [] |}.

Definition list_services : Api.RequestConfig :=
  Api.fresh Api.GET (lit "/services") VUndefined.

(** A clock that advances by one millisecond per reading. *)
Definition ticking : nat → Z := λ k, 1700000000000 + Z.of_nat k.

Definition reply : Chat.ChatResponse :=
  {| Chat.response := lit "There are 3 employees.";
     Chat.tools_used := [lit "list_employees"];
     Chat.resp_session_id := lit "session_1700000000002" |}.

(** A gateway that answers every chat request with [reply]. *)
Definition answering : nat → Api.RequestConfig → Api.outcome Chat.ChatResponse :=
  λ _ _, Api.Resolved 200 reply.

(** A gateway that accepts every registration. *)
Definition accepting : nat → Api.RequestConfig → Api.outcome value :=
  λ _ _, Api.Resolved 200 (VObj [(lit "message", VStr (lit "registered"))]).

(** A parser that reads every text as [spec_without_paths]. *)
Definition parse_fixed : jsstring → option value :=
  λ _, Some spec_without_paths.

Definition filled_in : list Form.event :=
  [Form.ChangeName (lit " users ");
   Form.ChangeBaseUrl (lit "https://x.test");
   Form.ChooseMethod Form.text;
   Form.TextChanged (lit "{}");
   Form.Submit].




(** The request [filled_in] ends with. *)
Definition users_request : Api.RequestConfig :=
  Api.request_interceptor Keycloak.initial
    (Api.fresh Api.POST (lit "/register-service")
       (Form.config_payload
          {| Form.cfg_name := lit "users";
             Form.cfg_base_url := lit "https://x.test";
             Form.cfg_openapi_spec := spec_without_paths |})).

End Examples.

(** ** A conversation through the hook *)

Module Conversation.

Section Calls.
Variable clock : nat → Z.
Variable network : nat → Api.RequestConfig → Api.outcome Chat.ChatResponse.

(** [sendMessage] called with one text after the other, each call
    awaited. *)
Definition converse (texts : list jsstring) (w : Chat.World) : Chat.World :=
  foldl (λ w' t, (Chat.sendMessage clock network t w').2) w texts.

End Calls.

(** The texts [sendMessage] does not ignore. *)
Definition not_blank (t : jsstring) : bool := truthy (VStr (trim t)).

End Conversation.

(** ** Further concrete inputs *)

Module Scenarios.

(** A gateway that refuses every request with status 409 and a reason. *)
Definition refusing {T : Type} : nat → Api.RequestConfig → Api.outcome T :=
  λ _ _, Api.Failed
           (Some {| Api.resp_status := 409;
                    Api.resp_data :=
                      VObj [(lit "detail",
                             VStr (lit "Service users already exists"))] |})
           true (lit "Request failed with status code 409").

(** The facade after [logout()] and [login()]. *)
Definition logged_in_again : list Keycloak.op :=
  [Keycloak.Logout; Keycloak.Login].

Definition client_logged_in_again : Api.World :=
  {| Api.auth := Keycloak.run_all logged_in_again; Api.sent := [] |}.

(** A parser that knows one text. *)
Definition parse_braces : jsstring → option value :=
  λ t, if decide (t = lit "{}") then Some Examples.spec_without_paths else None.

Definition any_url : jsstring → bool := λ _, true.

(** The form of [Examples.filled_in] just before it is submitted. *)
Definition form_ready : Form.World :=
  foldl (Form.handle any_url parse_braces Examples.accepting)
    (Form.initial Examples.fresh_client)
    [Form.ChangeName (lit " users ");
     Form.ChangeBaseUrl (lit "https://x.test");
     Form.ChooseMethod Form.text;
     Form.TextChanged (lit "{}")].

Definition users_config : Form.ServiceConfig :=
  {| Form.cfg_name := lit "users";
     Form.cfg_base_url := lit "https://x.test";
     Form.cfg_openapi_spec := Examples.spec_without_paths |}.

End Scenarios.

(** * Properties *)

(** ** Validation of an API description *)

Section Validation.

Lemma js_and_true (a b : option value) v :
  a &&> b = Some v → truthy v = true →
  (∃ va, a = Some va ∧ truthy va = true) ∧ b = Some v.
Proof.
  unfold js_and. destruct a as [va|]; simpl; [|done].
  destruct (truthy va) eqn:Hva.
  - intros -> _. eauto.
  - intros [= <-] Hv. congruence.
Qed.

Lemma js_and_is_Some (a b : option value) :
  is_Some a →
  (∀ va, a = Some va → truthy va = true → is_Some b) →
  is_Some (a &&> b).
Proof.
  intros [va ->] Hb. unfold js_and. simpl.
  destruct (truthy va) eqn:Hva; eauto.
Qed.

Lemma get_truthy_is_Some (v : value) (k : jsstring) :
  truthy v = true → is_Some (get v k).
Proof. destruct v; simpl; eauto; done. Qed.

(** The validator never throws: every property read is guarded by the
    truthiness of the object read from. *)
Lemma validateOpenAPISpec_total spec :
  is_Some (Api.validateOpenAPISpec_value spec).
Proof.
  unfold Api.validateOpenAPISpec_value.
  generalize (lit "openapi") (lit "info") (lit "title") (lit "version")
             (lit "paths").
  intros ko ki kt kv kp.
  repeat (apply js_and_is_Some; [|intros va Hva Htr]); eauto.
  all: repeat match goal with
         | H : _ &&> _ = Some ?v, Hv : truthy ?v = true |- _ =>
             apply js_and_true in H as [(? & ? & ?) ?]; [|exact Hv]
         end.
  all: repeat match goal with
         | H : Some _ = Some _ |- _ => injection H as H; try subst
         end.
  all: repeat match goal with
         | H : get ?v ?k = Some ?w |- context [get ?v ?k] => rewrite H; simpl
         end; eauto using get_truthy_is_Some.
Qed.

(** C1, as amended: [validateOpenAPISpec] accepts a candidate exactly
    when it is an object with a truthy [openapi] member, an [info]
    object whose [title] and [version] are truthy, and a [paths]
    member that is an object or an array; the number of paths is not
    looked at. *)
Theorem validateOpenAPISpec_accepts_iff (spec : value) :
  Api.validateOpenAPISpec spec = true ↔
  ∃ props iprops,
    spec = VObj props
    ∧ truthy (own_property props (lit "openapi")) = true
    ∧ own_property props (lit "info") = VObj iprops
    ∧ truthy (own_property iprops (lit "title")) = true
    ∧ truthy (own_property iprops (lit "version")) = true
    ∧ typeof (own_property props (lit "paths")) = TObject
    ∧ own_property props (lit "paths") ≠ VNull.
Proof.
  unfold Api.validateOpenAPISpec, Api.validateOpenAPISpec_value.
  generalize (lit "openapi") (lit "info") (lit "title") (lit "version")
             (lit "paths").
  intros ko ki kt kv kp. split.
  - destruct (_ &&> _) as [v|] eqn:Hchain; [|done]. intros Hv.
    repeat match goal with
           | H : _ &&> _ = Some ?v, Hv : truthy ?v = true |- _ =>
               apply js_and_true in H as [(? & ? & ?) ?]; [|exact Hv]
           end.
    destruct spec as [| |?|?|?|?|props]; simplify_eq/=.
    destruct (own_property props ki) as [| |?|?|?|?|iprops] eqn:Hi;
      simplify_eq/=.
    exists props, iprops. repeat split; try done.
    + by apply bool_decide_eq_true in Hv.
    + intros Hp. by rewrite Hp in *.
  - intros (props & iprops & -> & Ho & Hi & Ht & Hv & Hty & Hnull). simpl.
    rewrite Hi. simpl.
    assert (Hp : truthy (own_property props kp) = true)
      by (destruct (own_property props kp); done).
    unfold js_and. rewrite Ho. simpl. rewrite Ht. simpl. rewrite Hv. simpl.
    rewrite Hp. simpl. by apply bool_decide_eq_true.
Qed.

(** C1, as stated, fails: a description with a title and a version
    but no path at all is accepted. *)
Lemma validateOpenAPISpec_not_minimum_shape :
  ¬ (∀ spec : value,
       Api.validateOpenAPISpec spec = true ↔ Api.spec_minimum_shape spec = true).
Proof.
  intros H. specialize (H Examples.spec_without_paths).
  assert (Hacc : Api.validateOpenAPISpec Examples.spec_without_paths = true)
    by (vm_compute; reflexivity).
  apply H in Hacc. vm_compute in Hacc. discriminate.
Qed.

End Validation.

(** ** The HTTP client: retries and rejections *)

Section ClientFacts.
Import Api.
Context {T : Type} (network : nat → RequestConfig → outcome T).

Lemma client_unfold config w :
  client network config w =
  let c1 := request_interceptor (auth w) config in
  match network (length (sent w)) c1 with
  | Resolved st d => (Fulfilled st d, dispatched w c1)
  | Failed resp req msg =>
      if is_401 resp && negb (_retry c1) then
        match (if Keycloak.updateToken (auth w)
               then truthy_token (auth w) else None) with
        | Some token =>
            client network (set_Authorization (set_retry c1) (bearer token))
                   (dispatched w c1)
        | None =>
            (Rejected (RawError {| err_config := set_retry c1;
                                   err_response := resp; err_request := req;
                                   err_message := msg |}),
             {| auth := Keycloak.login (auth w); sent := sent w ++ [c1] |})
        end
      else
        (Rejected (Structured (handleError
            {| err_config := c1; err_response := resp; err_request := req;
               err_message := msg |})),
         dispatched w c1)
  end.
Proof.
  simp client. cbv zeta.
  destruct (network _ _) as [st d|resp req msg]; simpl; [done|].
  destruct (decide _) as [Hyes|Hno]; simpl.
  - destruct (truthy_token _); simpl; by rewrite Hyes.
  - by apply not_true_is_false in Hno as ->.
Qed.

(** The request interceptor touches the [Authorization] header only. *)
Lemma request_interceptor_frame s c :
  _retry (request_interceptor s c) = _retry c
  ∧ body (request_interceptor s c) = body c
  ∧ url (request_interceptor s c) = url c
  ∧ method (request_interceptor s c) = method c.
Proof. unfold request_interceptor. by destruct (truthy_token s). Qed.

(** A configuration that already carries [_retry] is dispatched once,
    and its failure goes to [handleError] whatever the status. *)
Lemma client_retried config w :
  _retry config = true →
  client network config w =
  let c1 := request_interceptor (auth w) config in
  match network (length (sent w)) c1 with
  | Resolved st d => (Fulfilled st d, dispatched w c1)
  | Failed resp req msg =>
      (Rejected (Structured (handleError
          {| err_config := c1; err_response := resp; err_request := req;
             err_message := msg |})),
       dispatched w c1)
  end.
Proof.
  intros Hr. rewrite client_unfold. cbv zeta.
  destruct (request_interceptor_frame (auth w) config) as (-> & _).
  destruct (network _ _); [done|].
  rewrite Hr. simpl. by rewrite andb_false_r.
Qed.

(** The requests one call puts on the wire: the request itself and at
    most one re-issue, all with the caller's url, method and body. *)
Lemma client_sent config w :
  ∃ rest,
    sent (client network config w).2
    = sent w ++ request_interceptor (auth w) config :: rest
    ∧ (length rest ≤ retry_budget config)%nat
    ∧ Forall (λ c, _retry c = true ∧ body c = body config
                   ∧ url c = url config ∧ method c = method config) rest.
Proof.
  rewrite client_unfold. cbv zeta.
  destruct (request_interceptor_frame (auth w) config) as (Hr & Hb & Hu & Hm).
  destruct (network _ _) as [st d|resp req msg]; simpl.
  { exists []. split_and!; [done|simpl; lia|constructor]. }
  destruct (is_401 resp && negb _) eqn:H401; simpl.
  2: { exists []. split_and!; [done|simpl; lia|constructor]. }
  apply andb_prop in H401 as [_ Hfresh%negb_true_iff].
  destruct (truthy_token (auth w)) as [token|] eqn:Htok.
  2: { exists []. split_and!; [done|simpl; lia|constructor]. }
  rewrite client_retried by done. cbv zeta. simpl.
  set (c2 := request_interceptor _ (set_Authorization _ _)).
  assert (Hc2 : _retry c2 = true ∧ body c2 = body config
                ∧ url c2 = url config ∧ method c2 = method config).
  { unfold c2.
    destruct (request_interceptor_frame (auth w)
      (set_Authorization (set_retry (request_interceptor (auth w) config))
                         (bearer token))) as (-> & -> & -> & ->).
    simpl. by rewrite Hb, Hu, Hm. }
  exists [c2]. unfold retry_budget. rewrite <- Hr, Hfresh.
  destruct (network _ c2); simpl; rewrite <- app_assoc;
    (split_and!; [done|simpl; lia|by apply Forall_singleton]).
Qed.

(** Data the client resolves with is data the transport resolved with. *)
Lemma client_fulfilled config w st d :
  (client network config w).1 = Fulfilled st d →
  ∃ k c, network k c = Resolved st d.
Proof.
  rewrite client_unfold. cbv zeta.
  destruct (network _ _) as [st' d'|resp req msg] eqn:Hnet; simpl.
  { intros [= -> ->]. eauto. }
  destruct (is_401 resp && negb _) eqn:H401; simpl; [|done].
  apply andb_prop in H401 as [_ Hfresh%negb_true_iff].
  destruct (truthy_token (auth w)) as [token|]; [|done].
  rewrite client_retried by done. cbv zeta.
  destruct (network _ (request_interceptor _ (set_Authorization _ _)))
    as [st' d'|] eqn:Hnet2; simpl; [|done].
  intros [= -> ->]. eauto.
Qed.



(** C8: a request of the client that fails with status 401 is put on
    the wire at most once more; the re-issued request carries
    [_retry], and when it meets a 401 again the call is rejected with
    the error built by [handleError], nothing further being sent. *)
Theorem client_reissues_at_most_once config w r req msg :
  _retry config = false →
  network (length (sent w)) (request_interceptor (auth w) config)
    = Failed (Some r) req msg →
  resp_status r = 401 →
  ∃ rest,
    sent (client network config w).2
    = sent w ++ request_interceptor (auth w) config :: rest
    ∧ (length rest ≤ 1)%nat
    ∧ Forall (λ c, _retry c = true) rest
    ∧ ∀ c r2 req2 msg2,
        c ∈ rest →
        network (S (length (sent w))) c = Failed (Some r2) req2 msg2 →
        resp_status r2 = 401 →
        (client network config w).1
        = Rejected (Structured (handleError
            {| err_config := c; err_response := Some r2;
               err_request := req2; err_message := msg2 |})).
Proof.
  intros Hfresh Hnet H401.
  rewrite client_unfold. cbv zeta. rewrite Hnet.
  destruct (request_interceptor_frame (auth w) config) as (Hr & _).
  rewrite Hr, Hfresh. simpl. rewrite H401, bool_decide_eq_true_2 by done.
  simpl.
  destruct (truthy_token (auth w)) as [token|] eqn:Htok.
  2: { exists []. split_and!; [done|simpl; lia|constructor|].
       intros c ???. by intros ?%elem_of_nil. }
  rewrite client_retried by done. cbv zeta. simpl.
  set (c2 := request_interceptor _ (set_Authorization _ _)).
  assert (Hc2 : _retry c2 = true).
  { unfold c2.
    by destruct (request_interceptor_frame (auth w)
      (set_Authorization (set_retry (request_interceptor (auth w) config))
                         (bearer token))) as (-> & _). }
  rewrite length_app. simpl. rewrite Nat.add_1_r.
  exists [c2]. split_and!.
  - destruct (network _ c2); simpl; by rewrite <- app_assoc.
  - simpl. lia.
  - by apply Forall_singleton.
  - intros c r2 req2 msg2 ->%list_elem_of_singleton Hnet2 _.
    by rewrite Hnet2.
Qed.



End ClientFacts.

(** The bound at work: a gateway that answers 401 to the request and to
    its re-issue. *)
Lemma client_reissues_at_most_once_witness :
  ∃ rest,
    Api.sent (Api.client (T:=value) Examples.unauthorized Examples.list_services
                Examples.fresh_client).2
    = Api.sent Examples.fresh_client
      ++ Api.request_interceptor (Api.auth Examples.fresh_client)
           Examples.list_services :: rest
    ∧ (length rest ≤ 1)%nat
    ∧ Forall (λ c, Api._retry c = true) rest
    ∧ ∀ c r2 req2 msg2,
        c ∈ rest →
        Examples.unauthorized (T:=value)
          (S (length (Api.sent Examples.fresh_client))) c
        = Api.Failed (Some r2) req2 msg2 →
        Api.resp_status r2 = 401 →
        (Api.client (T:=value) Examples.unauthorized Examples.list_services
           Examples.fresh_client).1
        = Api.Rejected (Api.Structured (Api.handleError
            {| Api.err_config := c; Api.err_response := Some r2;
               Api.err_request := req2; Api.err_message := msg2 |})).
Proof.
  apply (client_reissues_at_most_once (T:=value) Examples.unauthorized
           Examples.list_services Examples.fresh_client
           Examples.not_authenticated true
           (lit "Request failed with status code 401"));
    reflexivity.
Defined.



(** ** The authentication facade *)

Section KeycloakFacts.
Import Keycloak.

(** A token is only ever reported for an authenticated user. *)
Lemma has_token_authenticated (s : state) :
  has_token s = true → isAuthenticated s = true.
Proof. unfold has_token, getToken, isAuthenticated. by destruct (mockAuthenticated s). Qed.

(** C10, at the failing input: after [logout()] followed by [login()]
    the facade reports an authenticated user whose token is the empty
    string. *)
Theorem login_after_logout_has_no_token :
  isAuthenticated (run_all [Logout; Login]) = true
  ∧ getToken (run_all [Logout; Login]) = Some []
  ∧ has_token (run_all [Logout; Login]) = false.
Proof. done. Qed.

End KeycloakFacts.

(** ** The chat hook *)

Section ChatFacts.
Import Chat.
Variable clock : nat → Z.
Variable network : nat → Api.RequestConfig → Api.outcome ChatResponse.

Lemma trim_start_blank (s : jsstring) :
  forallb is_js_space s = true → trim_start s = [].
Proof.
  induction s as [|c s IH]; simpl; [done|].
  intros [-> Hs]%andb_prop. auto.
Qed.

Lemma trim_blank (s : jsstring) : forallb is_js_space s = true → trim s = [].
Proof.
  intros Hs. unfold trim. by rewrite (trim_start_blank s Hs).
Qed.

Lemma lit_inj (s1 s2 : string) : lit s1 = lit s2 → s1 = s2.
Proof.
  unfold lit. intros H.
  assert (Hinj : Inj (=) (=) N_of_ascii).
  { intros a b Hab.
    by rewrite <- (ascii_N_embedding a), <- (ascii_N_embedding b), Hab. }
  apply (inj (fmap N_of_ascii)) in H.
  rewrite <- (String.string_of_list_ascii_of_string s1).
  rewrite <- (String.string_of_list_ascii_of_string s2).
  by rewrite H.
Qed.

(** Session ids formed from different clock readings differ. *)
Lemma session_name_inj (t1 t2 : Z) :
  lit "session_" ++ lit (pretty t1) = lit "session_" ++ lit (pretty t2) →
  t1 = t2.
Proof. intros H%(inj (app _))%lit_inj. by apply (inj pretty). Qed.

(** One call of [sendMessage] with a message that is not blank. *)
Lemma sendMessage_nonblank msg w :
  truthy (VStr (trim msg)) = true →
  ∃ u m,
    sendMessage clock network msg w
    = (tt, {| messages := messages w ++ [u; m];
              isLoading := false;
              reads := 5 + reads w;
              api := (Api.post network (lit "/chat")
                        (chat_payload
                           {| message := msg;
                              session_id :=
                                lit "session_"
                                ++ lit (pretty (clock (2 + reads w))) |})
                        (api w)).2 |})
    ∧ sender u = user ∧ content u = msg ∧ msg_tools_used u = None
    ∧ sender m = assistant
    ∧ match (Api.post network (lit "/chat")
               (chat_payload
                  {| message := msg;
                     session_id :=
                       lit "session_"
                       ++ lit (pretty (clock (2 + reads w))) |})
               (api w)).1 with
      | inl resp =>
          content m = response resp
          ∧ msg_tools_used m = Some (tools_used resp)
      | inr error =>
          content m = lit "Error: "
                      ++ Api.error_text error (lit "Failed to send message")
          ∧ msg_tools_used m = None
      end.
Proof.
  intros Hmsg. unfold sendMessage. rewrite Hmsg. simpl negb. cbv iota.
  unfold mbind, hook_bind, now, setMessages, setIsLoading, sendChatMessage.
  simpl.
  destruct (Api.post _ _ _ _) as [[resp|error] a]; simpl;
    rewrite <- app_assoc; simpl; eexists _, _; (split; [reflexivity|done]).
Qed.

(** C9: [sendMessage] with an empty or whitespace-only string leaves
    the message list and [isLoading] as they are and sends nothing. *)
Theorem sendMessage_blank_noop msg w :
  forallb is_js_space msg = true →
  messages (sendMessage clock network msg w).2 = messages w
  ∧ isLoading (sendMessage clock network msg w).2 = isLoading w
  ∧ chat_requests (sendMessage clock network msg w).2 = chat_requests w.
Proof.
  intros Hblank. unfold sendMessage. by rewrite trim_blank.
Qed.

(** C4: when the chat call succeeds, its result is the answer, the
    tool names and the session id the gateway resolved with, and the
    hook appends, after the user's message, exactly one assistant
    message, whose content is the answer and whose tools are the
    returned [tools_used]. *)
Theorem sendMessage_success msg w resp a :
  truthy (VStr (trim msg)) = true →
  Api.post network (lit "/chat")
    (chat_payload {| message := msg;
                     session_id := lit "session_"
                                   ++ lit (pretty (clock (2 + reads w))) |})
    (api w) = (inl resp, a) →
  (∃ k c st, network k c = Api.Resolved st resp)
  ∧ ∃ u m,
      messages (sendMessage clock network msg w).2 = messages w ++ [u; m]
      ∧ sender u = user ∧ content u = msg
      ∧ sender m = assistant
      ∧ content m = response resp
      ∧ msg_tools_used m = Some (tools_used resp).
Proof.
  intros Hmsg Hpost. split.
  - unfold Api.post in Hpost.
    destruct (Api.client _ _ _) as [[st d|rej] w'] eqn:Hclient; [|done].
    injection Hpost as -> _.
    destruct (client_fulfilled network
                (Api.fresh Api.POST (lit "/chat")
                   (chat_payload
                      {| message := msg;
                         session_id := lit "session_"
                                       ++ lit (pretty (clock (2 + reads w))) |}))
                (api w) st resp) as (k & c & Hk); [by rewrite Hclient|].
    eauto.
  - destruct (sendMessage_nonblank msg w Hmsg)
      as (u & m & -> & Hu & Hcu & _ & Hm & Hcase).
    rewrite Hpost in Hcase. simpl in Hcase. destruct Hcase as [Hc Ht].
    exists u, m. done.
Qed.

(** C5, as amended: every request a call of [sendMessage] sends
    carries the session id [session_<t>], where [t] is the clock
    reading taken for that call; the ids of two calls coincide only
    when those two readings do. *)
Theorem sendMessage_session_id msg w :
  truthy (VStr (trim msg)) = true →
  (∃ new,
     chat_requests (sendMessage clock network msg w).2 = chat_requests w ++ new
     ∧ new ≠ []
     ∧ Forall (λ c, get_opt (Api.body c) (lit "session_id")
                    = VStr (lit "session_"
                            ++ lit (pretty (clock (2 + reads w))))) new)
  ∧ ∀ t1 t2 : Z,
      lit "session_" ++ lit (pretty t1) = lit "session_" ++ lit (pretty t2)
      ↔ t1 = t2.
Proof.
  intros Hmsg. split; [|intros t1 t2; split; [apply session_name_inj|by intros ->]].
  destruct (sendMessage_nonblank msg w Hmsg) as (u & m & -> & _).
  unfold chat_requests, Api.post. simpl.
  set (cfg := Api.fresh _ _ _).
  destruct (client_sent network cfg (api w)) as (rest & Hsent & _ & Hrest).
  destruct (Api.client _ _ _) as [[st d|rej] w']; simpl in *;
    (eexists; split; [exact Hsent|split; [done|]]).
  all: constructor;
    [by destruct (request_interceptor_frame (Api.auth (api w)) cfg)
          as (_ & -> & _)
    |eapply Forall_impl; [exact Hrest|by intros c (_ & -> & _)]].
Qed.

End ChatFacts.

(** Two spaces sent through a hook just mounted. *)
Lemma sendMessage_blank_noop_witness :
  Chat.messages (Chat.sendMessage Examples.ticking Examples.answering
                   (lit "  ") (Chat.initial Keycloak.initial)).2 = []
  ∧ Chat.isLoading (Chat.sendMessage Examples.ticking Examples.answering
                      (lit "  ") (Chat.initial Keycloak.initial)).2 = false
  ∧ Chat.chat_requests (Chat.sendMessage Examples.ticking Examples.answering
                          (lit "  ") (Chat.initial Keycloak.initial)).2 = [].
Proof.
  exact (sendMessage_blank_noop Examples.ticking Examples.answering
           (lit "  ") (Chat.initial Keycloak.initial) eq_refl).
Defined.

(** One message answered by the gateway. *)
Lemma sendMessage_success_witness :
  (∃ k c st, Examples.answering k c = Api.Resolved st Examples.reply)
  ∧ ∃ u m,
      Chat.messages (Chat.sendMessage Examples.ticking Examples.answering
                       (lit "hi") (Chat.initial Keycloak.initial)).2
      = [] ++ [u; m]
      ∧ Chat.sender u = Chat.user ∧ Chat.content u = lit "hi"
      ∧ Chat.sender m = Chat.assistant
      ∧ Chat.content m = Chat.response Examples.reply
      ∧ Chat.msg_tools_used m = Some (Chat.tools_used Examples.reply).
Proof.
  apply (sendMessage_success Examples.ticking Examples.answering (lit "hi")
           (Chat.initial Keycloak.initial) Examples.reply
           {| Api.auth := Keycloak.initial;
              Api.sent :=
                [Api.request_interceptor Keycloak.initial
                   (Api.fresh Api.POST (lit "/chat")
                      (Chat.chat_payload
                         {| Chat.message := lit "hi";
                            Chat.session_id := lit "session_1700000000002" |}))] |});
    reflexivity.
Defined.

(** The session id of a message sent when the clock's third reading is
    [1700000000002]. *)
Lemma sendMessage_session_id_witness :
  (∃ new,
     Chat.chat_requests (Chat.sendMessage Examples.ticking Examples.answering
                           (lit "hi") (Chat.initial Keycloak.initial)).2
     = [] ++ new
     ∧ new ≠ []
     ∧ Forall (λ c, get_opt (Api.body c) (lit "session_id")
                    = VStr (lit "session_" ++ lit (pretty (Examples.ticking 2))))
              new)
  ∧ ∀ t1 t2 : Z,
      lit "session_" ++ lit (pretty t1) = lit "session_" ++ lit (pretty t2)
      ↔ t1 = t2.
Proof.
  exact (sendMessage_session_id Examples.ticking Examples.answering
           (lit "hi") (Chat.initial Keycloak.initial) eq_refl).
Defined.

(** C5, as stated, fails: two messages sent one after the other through
    the same hook carry different session ids. *)
Lemma sendMessage_session_ids_differ :
  ¬ (∀ (clock : nat → Z)
       (network : nat → Api.RequestConfig → Api.outcome Chat.ChatResponse)
       (m1 m2 : jsstring) (w : Chat.World),
       truthy (VStr (trim m1)) = true →
       truthy (VStr (trim m2)) = true →
       ∀ c1 c2,
         c1 ∈ Chat.chat_requests
                (Chat.sendMessage clock network m2
                   (Chat.sendMessage clock network m1 w).2).2 →
         c2 ∈ Chat.chat_requests
                (Chat.sendMessage clock network m2
                   (Chat.sendMessage clock network m1 w).2).2 →
         get_opt (Api.body c1) (lit "session_id")
         = get_opt (Api.body c2) (lit "session_id")).
Proof.
  intros H.
  specialize (H Examples.ticking Examples.answering (lit "hi") (lit "and then?")
                (Chat.initial Keycloak.initial) eq_refl eq_refl).
  remember (Chat.chat_requests _) as l eqn:Hl. vm_compute in Hl. subst l.
  match type of H with
  | ∀ c1 c2, c1 ∈ [?a; ?b] → _ =>
      specialize (H a b ltac:(by left) ltac:(by right; left))
  end.
  vm_compute in H. discriminate H.
Qed.

(** ** The registration form *)

Section FormFacts.
Import Form.
Variable url_parses : jsstring → bool.
Variable json_parse : jsstring → option value.
Variable network : nat → Api.RequestConfig → Api.outcome value.

Lemma truthy_trim_nonempty (s : jsstring) :
  negb (truthy (VStr (trim s))) = false → trim s ≠ [].
Proof.
  simpl. rewrite negb_involutive. intros H.
  by apply bool_decide_eq_false in H.
Qed.

(** [validateForm] passes only on a complete form. *)
Lemma newErrors_empty (d : ServiceFormData) :
  size (newErrors url_parses d) = 0%nat →
  trim (name d) ≠ [] ∧ url_parses (base_url d) = true
  ∧ ∃ spec, openapi_spec d = Some spec.
Proof.
  intros Hsize%map_size_empty_iff. unfold newErrors in Hsize.
  destruct (spec_missing d) eqn:Hspec.
  { destruct (upload_method d); by apply insert_non_empty in Hsize. }
  destruct (negb (truthy (VStr (trim (base_url d))))) eqn:Hurl.
  { by apply insert_non_empty in Hsize. }
  destruct (url_parses (base_url d)) eqn:Hparse.
  2: { by apply insert_non_empty in Hsize. }
  destruct (negb (truthy (VStr (trim (name d))))) eqn:Hname.
  { by apply insert_non_empty in Hsize. }
  split_and!; [by apply truthy_trim_nonempty|done|].
  unfold spec_missing in Hspec. destruct (openapi_spec d); [eauto|done].
Qed.

Lemma handleSubmit_invariant w :
  form_invariant url_parses w → form_invariant url_parses (handleSubmit url_parses network w).
Proof.
  intros [Hspec Hsent]. unfold handleSubmit, validateForm.
  destruct (bool_decide (size (newErrors url_parses (formData w)) = 0%nat))
    eqn:Hok; simpl.
  2: { by split. }
  apply bool_decide_eq_true in Hok.
  apply newErrors_empty in Hok as (Hname & Hurl & spec & Hsome).
  unfold registerService, Api.post. simpl.
  set (cfg := Api.fresh _ _ _).
  destruct (client_sent network cfg (api w)) as (rest & Hlog & _ & Hrest).
  assert (Hinv : Forall (checked_request url_parses)
                   (Api.sent (Api.client network cfg (api w)).2)).
  { rewrite Hlog. apply Forall_app. split; [done|].
    assert (Hcfg : ∀ c, Api.body c = Api.body cfg → Api.url c = Api.url cfg →
                        checked_request url_parses c).
    { intros c Hb Hu. exists (name (formData w)), (base_url (formData w)), spec.
      rewrite Hb, Hu. unfold cfg. simpl. rewrite Hsome. simpl.
      split_and!; try done. by apply Hspec. }
    constructor.
    - by destruct (request_interceptor_frame (Api.auth (api w)) cfg)
        as (_ & Hb & Hu & _); apply Hcfg.
    - eapply Forall_impl; [exact Hrest|].
      intros c (_ & Hb & Hu & _). by apply Hcfg. }
  destruct (Api.client network cfg (api w)) as [[st d|rej] a]; simpl in *.
  - by destruct (truthy d).
  - done.
Qed.

Lemma handle_invariant w e :
  form_invariant url_parses w → form_invariant url_parses (handle url_parses json_parse network w e).
Proof.
  intros Hinv. destruct e as [s|s|m|content|t|]; simpl.
  - exact Hinv.
  - exact Hinv.
  - destruct Hinv as [_ Hsent]. by split.
  - destruct Hinv as [Hspec Hsent]. unfold handleFileSelect.
    destruct content as [c|]; [|by split].
    destruct (json_parse c) as [spec|]; [|by split].
    destruct (Api.validateOpenAPISpec spec) eqn:Hvalid; [|by split].
    split; [|done]. simpl. by intros ? [= <-].
  - destruct Hinv as [Hspec Hsent]. unfold handleTextChange.
    destruct (truthy (VStr (trim t))); [|by split].
    destruct (json_parse t) as [spec|]; [|by split].
    destruct (Api.validateOpenAPISpec spec) eqn:Hvalid; [|by split].
    split; [|done]. simpl. by intros ? [= <-].
  - by apply handleSubmit_invariant.
Qed.

Lemma run_invariant events w :
  form_invariant url_parses w →
  form_invariant url_parses (foldl (handle url_parses json_parse network) w events).
Proof.
  revert w. induction events as [|e events IH]; intros w Hinv; simpl; [done|].
  by apply IH, handle_invariant.
Qed.

(** C3: whatever is done to the form, a register request goes to the
    gateway only with a trimmed name that is not empty, a base URL
    that parsed, and a description that passed [validateOpenAPISpec];
    a description that failed it is never stored, so never sent. *)
Theorem register_request_checked (s : Keycloak.state) events c :
  c ∈ Api.sent (api (foldl (handle url_parses json_parse network)
                       (initial {| Api.auth := s; Api.sent := [] |}) events)) →
  ∃ n b spec,
    Api.body c = config_payload {| cfg_name := trim n; cfg_base_url := trim b;
                                   cfg_openapi_spec := spec |}
    ∧ Api.url c = lit "/register-service"
    ∧ trim n ≠ []
    ∧ url_parses b = true
    ∧ Api.validateOpenAPISpec spec = true.
Proof.
  intros Hc.
  assert (Hinit : form_invariant url_parses (initial {| Api.auth := s; Api.sent := [] |})).
  { split; [done|constructor]. }
  destruct (run_invariant events _ Hinit) as [_ Hsent].
  rewrite Forall_forall in Hsent. by apply Hsent.
Qed.

End FormFacts.

(** The request sent by a form filled in and submitted. *)
Lemma register_request_checked_witness :
  ∃ n b spec,
    Api.body Examples.users_request
    = Form.config_payload {| Form.cfg_name := trim n; Form.cfg_base_url := trim b;
                             Form.cfg_openapi_spec := spec |}
    ∧ Api.url Examples.users_request = lit "/register-service"
    ∧ trim n ≠ []
    ∧ (λ _ : jsstring, true) b = true
    ∧ Api.validateOpenAPISpec spec = true.
Proof.
  apply (register_request_checked (λ _, true) Examples.parse_fixed
           Examples.accepting Keycloak.initial Examples.filled_in
           Examples.users_request).
  vm_compute. left.
Defined.

(** ** The endpoint registry *)

Section RegistryFacts.
Import Registry.
Variable translate : value → option nat.
Variable starts : N → bool.
Variable base : N.






End RegistryFacts.



(** ** The orchestration loop *)

Section LoopFacts.
Import Orchestration.
Variable cfg : AgentConfig.
Variable model : list ToolInvocationRecord → decision.
Variable forced_answer : list ToolInvocationRecord → jsstring.
Variable invoke : ToolCall → value + jsstring.

Local Abbreviation step := (step cfg model forced_answer invoke).
Local Abbreviation run := (run cfg model forced_answer invoke).
Local Abbreviation iterations_run :=
  (iterations_run cfg model forced_answer invoke).

Lemma run_S n : run (S n) = step (run n).
Proof. reflexivity. Qed.

(** A transition enters Act exactly when it counts an iteration. *)
Lemma step_iterations t :
  iterations (step t)
  = (iterations t + if acting (step t) then 1 else 0)%nat.
Proof.
  unfold Orchestration.step, acting.
  destruct (at_phase t) eqn:Hphase; simpl; try lia.
  - destruct (decide _); simpl; [lia|].
    destruct (model (scratchpad t)); simpl; lia.
  - rewrite Hphase. lia.
Qed.

Lemma step_below_cap t :
  (iterations t ≤ AGENT_MAX_ITERATIONS cfg)%nat →
  (iterations (step t) ≤ AGENT_MAX_ITERATIONS cfg)%nat.
Proof.
  unfold Orchestration.step.
  destruct (at_phase t); simpl; try done.
  destruct (decide _); simpl; [done|].
  destruct (model (scratchpad t)); simpl; lia.
Qed.

Lemma iterations_run_S n :
  iterations_run (S n)
  = (iterations_run n + if acting (run (S n)) then 1 else 0)%nat.
Proof.
  unfold Orchestration.iterations_run, Orchestration.trace.
  rewrite (seq_S (S n)), fmap_app, filter_app, length_app. f_equal.
  change (run <$> [(0 + S n)%nat]) with [run (S n)].
  rewrite filter_cons, filter_nil.
  destruct (acting (run (S n))); by case_decide.
Qed.

(** The counter of the turn is the number of Act phases entered. *)
Lemma iterations_counted n :
  iterations_run n = iterations (run n)
  ∧ (iterations (run n) ≤ AGENT_MAX_ITERATIONS cfg)%nat.
Proof.
  induction n as [|n [IHcount IHcap]].
  - split; [reflexivity|simpl; lia].
  - split.
    + rewrite iterations_run_S, run_S, step_iterations. by rewrite IHcount.
    + rewrite run_S. by apply step_below_cap.
Qed.

Lemma step_finished t : finished t = true → step t = t.
Proof. unfold finished, Orchestration.step. by destruct (at_phase t). Qed.

Lemma step_progress t :
  finished t = false →
  (steps_left cfg (step t) < steps_left cfg t)%nat.
Proof.
  unfold finished, steps_left, Orchestration.step.
  destruct (at_phase t); simpl; try lia; try done.
  destruct (decide _); simpl; [lia|].
  destruct (model (scratchpad t)); simpl; lia.
Qed.

Lemma run_progress n :
  finished (run n) = true
  ∨ (steps_left cfg (run n) + n ≤ 3 * AGENT_MAX_ITERATIONS cfg + 2)%nat.
Proof.
  induction n as [|n [IH|IH]].
  - right. unfold steps_left. simpl. lia.
  - left. by rewrite run_S, step_finished.
  - destruct (finished (run n)) eqn:Hfin.
    + left. by rewrite run_S, step_finished.
    + right. rewrite run_S. apply step_progress in Hfin. lia.
Qed.

(** C2: a turn never runs more iterations than the configured cap, it
    has reached Finish after three transitions per allowed iteration
    and two more, and the cap is 15 unless configured otherwise. *)
Theorem loop_bounded n :
  (iterations_run n ≤ AGENT_MAX_ITERATIONS cfg)%nat
  ∧ finished (run (3 * AGENT_MAX_ITERATIONS cfg + 2)) = true
  ∧ AGENT_MAX_ITERATIONS default_config = 15%nat.
Proof.
  split_and!.
  - destruct (iterations_counted n) as [-> Hcap]. exact Hcap.
  - destruct (run_progress (3 * AGENT_MAX_ITERATIONS cfg + 2)) as [Hfin|Hleft];
      [done|].
    unfold steps_left, finished in *.
    destruct (at_phase (run _)); simpl in *; try lia; done.
  - reflexivity.
Qed.

End LoopFacts.

(** * Further properties of the client *)

(** ** Sequences of facade calls *)

Section KeycloakSequences.
Import Keycloak.

Lemma run_all_snoc ops o : run_all (ops ++ [o]) = run (run_all ops) o.
Proof. unfold run_all. by rewrite foldl_snoc. Qed.

Lemma foldl_run_token_kept ops s :
  Logout ∉ ops → mockToken (foldl run s ops) = mockToken s.
Proof.
  revert s. induction ops as [|o ops IH]; intros s Hno; simpl; [done|].
  apply not_elem_of_cons in Hno as [Ho Hno].
  rewrite IH by done. by destruct o.
Qed.

Lemma foldl_run_token_wiped ops s :
  Logout ∈ ops → mockToken (foldl run s ops) = [].
Proof.
  intros (before & after & ->)%list_elem_of_split.
  rewrite foldl_app. simpl. revert before s.
  induction after as [|o after IH] using rev_ind; intros before s; [done|].
  rewrite foldl_snoc. specialize (IH before s). by destruct o.
Qed.

Lemma foldl_run_stays_in ops s :
  Logout ∉ ops → mockAuthenticated s = true →
  mockAuthenticated (foldl run s ops) = true.
Proof.
  revert s. induction ops as [|o ops IH]; intros s Hno Hs; simpl; [done|].
  apply not_elem_of_cons in Hno as [Ho Hno].
  apply IH; [done|]. by destruct o.
Qed.

Lemma foldl_run_stays_out ops s :
  Login ∉ ops → mockAuthenticated s = false →
  mockAuthenticated (foldl run s ops) = false.
Proof.
  revert s. induction ops as [|o ops IH]; intros s Hno Hs; simpl; [done|].
  apply not_elem_of_cons in Hno as [Ho Hno].
  apply IH; [done|]. by destruct o.
Qed.

(** X1: [logout()] wipes the token for good: after any series of facade
    calls, [getToken()] yields a non-empty token exactly when [logout()]
    was never among them. *)
Theorem token_survives_iff_never_logged_out (ops : list op) :
  has_token (run_all ops) = true ↔ Logout ∉ ops.
Proof.
  unfold has_token, getToken, run_all. split.
  - intros Htok Hin.
    destruct (mockAuthenticated _); [|done].
    by rewrite foldl_run_token_wiped in Htok.
  - intros Hno. rewrite foldl_run_stays_in by done.
    by rewrite foldl_run_token_kept.
Qed.

(** X2: Whether the user counts as authenticated depends on the last of the
    [login()] and [logout()] calls only: [isAuthenticated()] is false
    exactly when a [logout()] was made with no [login()] after it. *)
Theorem isAuthenticated_false_iff (ops : list op) :
  isAuthenticated (run_all ops) = false
  ↔ ∃ before after, ops = before ++ Logout :: after ∧ Login ∉ after.
Proof.
  unfold isAuthenticated. split.
  - induction ops as [|o ops IH] using rev_ind; [done|].
    rewrite run_all_snoc. intros Hout.
    assert (Hkeep : o ≠ Login → o ≠ Logout →
              ∃ before after, ops ++ [o] = before ++ Logout :: after
                              ∧ Login ∉ after).
    { intros Hlogin Hlogout.
      destruct IH as (before & after & -> & Hafter); [by destruct o|].
      exists before, (after ++ [o]). split.
      - by rewrite <- app_assoc.
      - rewrite elem_of_app, list_elem_of_singleton. by intros [?| <-]. }
    destruct o; try (by apply Hkeep).
    exists ops, []. split; [done|]. apply not_elem_of_nil.
  - intros (before & after & -> & Hafter).
    unfold run_all. rewrite foldl_app. simpl.
    by apply foldl_run_stays_out.
Qed.

End KeycloakSequences.

(** ** The authentication context *)

Section AuthProviderFacts.
Import AuthProvider.

Lemma run_snoc events e : run (events ++ [e]) = handle (run events) e.
Proof. unfold run. by rewrite foldl_snoc. Qed.

(** X3: A token shown by the context is the facade's current token, is not
    empty, and comes with the user's record. *)
Theorem context_token_is_current (events : list event) (t : jsstring) :
  ctx_token (contextValue (run events)) = Some t →
  t ≠ []
  ∧ Keycloak.getToken (keycloak (run events)) = Some t
  ∧ ctx_user (contextValue (run events)) = Some mockUser
  ∧ ctx_isAuthenticated (contextValue (run events)) = true.
Proof.
  simpl. revert t.
  induction events as [|e events IH] using rev_ind; intros t; [done|].
  rewrite run_snoc. destruct e; simpl; try done.
  - unfold initAuth_resumed, Keycloak.initKeycloak, getUserInfo,
      Keycloak.getToken, Keycloak.isAuthenticated.
    destruct (Keycloak.mockAuthenticated (keycloak (run events))) eqn:Hauth;
      simpl.
    + destruct (negb _) eqn:Hne; [|done]. intros [= <-].
      apply negb_true_iff, bool_decide_eq_false in Hne.
      by rewrite Hauth.
    + intros Ht. apply IH in Ht as (_ & Hget & _).
      unfold Keycloak.getToken in Hget. by rewrite Hauth in Hget.
  - intros Ht. apply IH in Ht as (Hne & Hget & Huser & _).
    unfold Keycloak.getToken, Keycloak.isAuthenticated in *. simpl.
    destruct (Keycloak.mockAuthenticated (keycloak (run events))); done.
Qed.

(** X4: Once a consumer has logged out, the context never shows a token
    again, whatever follows: logging in, the provider being mounted
    anew, its initialisation resuming. *)
Theorem context_token_gone_after_logout (before after : list event) :
  ctx_token (contextValue (run (before ++ Logout :: after))) = None
  ∧ Keycloak.has_token (keycloak (run (before ++ Logout :: after))) = false.
Proof.
  simpl.
  assert (Hinv : token (run (before ++ Logout :: after)) = None
                 ∧ Keycloak.mockToken (keycloak (run (before ++ Logout :: after)))
                   = []).
  { induction after as [|e after [IHtok IHk]] using rev_ind.
    - rewrite run_snoc. done.
    - rewrite app_comm_cons, app_assoc, run_snoc.
      destruct e; simpl; try done.
      unfold initAuth_resumed, Keycloak.initKeycloak, Keycloak.getToken.
      destruct (Keycloak.mockAuthenticated _); simpl; [|done].
      by rewrite IHk. }
  destruct Hinv as [Htok Hk]. split; [done|].
  unfold Keycloak.has_token, Keycloak.getToken. rewrite Hk.
  by destruct (Keycloak.mockAuthenticated _).
Qed.

End AuthProviderFacts.

(** ** The HTTP client: headers, single dispatch, the auth state *)

Section ClientExtras.
Local Abbreviation client_eqn := (@client_unfold).
Import Api.
Context {T : Type} (network : nat → RequestConfig → outcome T).

Lemma request_interceptor_header s c :
  Authorization c = None →
  match Authorization (request_interceptor s c) with
  | None => truthy_token s = None
  | Some h => ∃ t, h = bearer t ∧ t ≠ [] ∧ Keycloak.getToken s = Some t
  end.
Proof.
  intros Hc. unfold request_interceptor, truthy_token.
  destruct (Keycloak.getToken s) as [t|]; simpl; [|by rewrite Hc].
  destruct (negb _) eqn:Hne; simpl; [|by rewrite Hc].
  apply negb_true_iff, bool_decide_eq_false in Hne. eauto.
Qed.

(** X5: A request that starts without an [Authorization] header goes out
    either without one, when the facade has no usable token, or with
    [Bearer] followed by the facade's current token, which is not
    empty; this holds for the re-issued request as well. *)
Theorem client_authorization_header config w :
  Authorization config = None →
  ∃ new,
    sent (client network config w).2 = sent w ++ new
    ∧ Forall (λ c,
        match Authorization c with
        | None => truthy_token (auth w) = None
        | Some h => ∃ t, h = bearer t ∧ t ≠ []
                         ∧ Keycloak.getToken (auth w) = Some t
        end) new.
Proof.
  intros Hc. pose proof (request_interceptor_header (auth w) config Hc) as H1.
  pose proof (client_eqn _ network config w) as Hcl. cbv zeta in Hcl.
  destruct (network _ _) as [st d|resp req msg]; simpl in Hcl.
  { eexists. split; [by rewrite Hcl|]. by apply Forall_singleton. }
  destruct (is_401 resp && negb _) eqn:H401; simpl in Hcl.
  2: { eexists. split; [by rewrite Hcl|]. by apply Forall_singleton. }
  apply andb_prop in H401 as [_ Hfresh%negb_true_iff].
  destruct (truthy_token (auth w)) as [token|] eqn:Htok.
  2: { eexists. split; [by rewrite Hcl|]. by apply Forall_singleton. }
  rewrite (client_retried network (set_Authorization _ _)) in Hcl by done.
  cbv zeta in Hcl. simpl in Hcl.
  set (c2 := request_interceptor _ (set_Authorization _ _)) in Hcl.
  assert (H2 : ∃ t, Authorization c2 = Some (bearer t) ∧ t ≠ []
                    ∧ Keycloak.getToken (auth w) = Some t).
  { unfold c2, request_interceptor. rewrite Htok. simpl.
    unfold truthy_token in Htok.
    destruct (Keycloak.getToken (auth w)) as [t|]; [|done].
    destruct (truthy (VStr t)) eqn:Ht; [|done]. injection Htok as <-.
    exists t. split_and!; [done| |done].
    simpl in Ht. by apply negb_true_iff, bool_decide_eq_false in Ht. }
  destruct H2 as (t & Hh & Ht & Hget).
  exists [request_interceptor (auth w) config; c2].
  split.
  - rewrite Hcl. destruct (network _ c2); simpl; by rewrite <- app_assoc.
  - repeat constructor; [done|]. rewrite Hh. eauto.
Qed.

(** X6: Unless the first answer is a failure with status 401, a call puts
    exactly one request on the wire, leaves the facade's state alone,
    and ends with the transport's response or with the object
    [handleError] builds from the failure. *)
Theorem client_single_dispatch config w :
  (∀ r req msg,
     network (length (sent w)) (request_interceptor (auth w) config)
     = Failed (Some r) req msg → resp_status r ≠ 401) →
  client network config w =
  (match network (length (sent w)) (request_interceptor (auth w) config) with
   | Resolved st d => Fulfilled st d
   | Failed resp req msg =>
       Rejected (Structured (handleError
         {| err_config := request_interceptor (auth w) config;
            err_response := resp; err_request := req; err_message := msg |}))
   end,
   {| auth := auth w;
      sent := sent w ++ [request_interceptor (auth w) config] |}).
Proof.
  intros Hnot. rewrite (client_eqn _ network). cbv zeta.
  destruct (network _ _) as [st d|resp req msg] eqn:Hnet; [done|].
  assert (is_401 resp = false) as ->; [|done].
  destruct resp as [r|]; [|done]. simpl.
  apply bool_decide_eq_false. by eapply Hnot.
Qed.

(** X7: The client assigns the facade's variables in one case only: when it
    gives up on a 401 and hands the transport's error to its caller, it
    has called [login()]. *)
Theorem client_auth_state config w :
  auth (client network config w).2
  = match (client network config w).1 with
    | Rejected (RawError _) => Keycloak.login (auth w)
    | _ => auth w
    end.
Proof.
  rewrite (client_eqn _ network). cbv zeta.
  destruct (network _ _) as [st d|resp req msg]; simpl; [done|].
  destruct (is_401 resp && negb _) eqn:H401; simpl; [|done].
  apply andb_prop in H401 as [_ Hfresh%negb_true_iff].
  destruct (truthy_token (auth w)) as [token|]; [|done].
  rewrite client_retried by done. cbv zeta.
  by destruct (network _ (request_interceptor _ (set_Authorization _ _))).
Qed.

(** X8: After a [logout()], with or without a later [login()], a request
    goes out once and without an [Authorization] header; an answer of
    401 is not retried: the caller gets the transport's error, and the
    facade reports an authenticated user who still has no token. *)
Theorem client_after_logout ops m u payload w :
  Keycloak.Logout ∈ ops →
  auth w = Keycloak.run_all ops →
  sent (client network (fresh m u payload) w).2
  = sent w ++ [fresh m u payload]
  ∧ ∀ r req msg,
      network (length (sent w)) (fresh m u payload) = Failed (Some r) req msg →
      resp_status r = 401 →
      (client network (fresh m u payload) w).1
      = Rejected (RawError {| err_config := set_retry (fresh m u payload);
                              err_response := Some r; err_request := req;
                              err_message := msg |})
      ∧ Keycloak.isAuthenticated (auth (client network (fresh m u payload) w).2)
        = true
      ∧ Keycloak.has_token (auth (client network (fresh m u payload) w).2)
        = false.
Proof.
  intros Hout Hauth.
  assert (Hwiped : Keycloak.mockToken (auth w) = []).
  { rewrite Hauth. by apply foldl_run_token_wiped. }
  assert (Htok : truthy_token (auth w) = None).
  { unfold truthy_token, Keycloak.getToken. rewrite Hwiped.
    by destruct (Keycloak.mockAuthenticated (auth w)). }
  assert (Hreq : request_interceptor (auth w) (fresh m u payload)
                 = fresh m u payload).
  { unfold request_interceptor. by rewrite Htok. }
  rewrite (client_eqn _ network). cbv zeta. rewrite Hreq, Htok. split.
  - destruct (network _ _) as [st d|resp req msg]; simpl; [done|].
    by destruct (is_401 resp).
  - intros r req msg -> H401. simpl.
    rewrite H401, bool_decide_eq_true_2 by done. simpl.
    split_and!; [done|done|].
    unfold Keycloak.has_token, Keycloak.getToken. simpl. by rewrite Hwiped.
Qed.

(** X11: Every request [deleteService(name)], [getServices()] and
    [healthCheck()] put on the wire, one or at most two, has the verb
    and the path of the method and no body; the service name is put
    into the path as it is. *)
Theorem apiservice_requests (serviceName : jsstring) w :
  (∃ first rest,
     sent (ApiService.deleteService network serviceName w).2
     = sent w ++ first :: rest
     ∧ (length rest ≤ 1)%nat
     ∧ Forall (λ c, method c = DELETE
                    ∧ url c = lit "/delete-service/" ++ serviceName
                    ∧ body c = VUndefined) (first :: rest))
  ∧ (∃ first rest,
       sent (ApiService.getServices network w).2 = sent w ++ first :: rest
       ∧ (length rest ≤ 1)%nat
       ∧ Forall (λ c, method c = GET ∧ url c = lit "/services"
                      ∧ body c = VUndefined) (first :: rest))
  ∧ (∃ first rest,
       sent (ApiService.healthCheck network w).2 = sent w ++ first :: rest
       ∧ (length rest ≤ 1)%nat
       ∧ Forall (λ c, method c = GET ∧ url c = lit "/health"
                      ∧ body c = VUndefined) (first :: rest)).
Proof.
  assert (Hgen : ∀ m u,
    ∃ first rest,
      sent (ApiService.request network m u VUndefined w).2
      = sent w ++ first :: rest
      ∧ (length rest ≤ 1)%nat
      ∧ Forall (λ c, method c = m ∧ url c = u ∧ body c = VUndefined)
               (first :: rest)).
  { intros m u. unfold ApiService.request.
    destruct (client_sent network (fresh m u VUndefined) w)
      as (rest & Hsent & Hlen & Hrest).
    destruct (request_interceptor_frame (auth w) (fresh m u VUndefined))
      as (_ & Hb & Hu & Hm).
    exists (request_interceptor (auth w) (fresh m u VUndefined)), rest.
    split_and!.
    - by destruct (client network (fresh m u VUndefined) w) as [[??|?] ?].
    - exact Hlen.
    - constructor; [done|].
      eapply Forall_impl; [exact Hrest|]. by intros c (_ & -> & -> & ->). }
  split_and!; apply Hgen.
Qed.

End ClientExtras.

(** ** What [trim] leaves *)

Section TrimFacts.

Lemma trim_start_head (s : jsstring) c r :
  trim_start s = c :: r → is_js_space c = false.
Proof.
  induction s as [|c' s IH]; simpl; [done|].
  destruct (is_js_space c') eqn:Hc'; [done|]. by intros [= <- _].
Qed.

Lemma trim_start_suffix (s : jsstring) : ∃ p, s = p ++ trim_start s.
Proof.
  induction s as [|c s [p IH]]; simpl; [by exists []|].
  destruct (is_js_space c).
  - exists (c :: p). simpl. by rewrite <- IH.
  - by exists [].
Qed.

Lemma trim_start_fixed (s : jsstring) :
  (∀ c, head s = Some c → is_js_space c = false) → trim_start s = s.
Proof.
  destruct s as [|c s]; simpl; [done|]. intros H. by rewrite (H c).
Qed.

(** A trimmed string neither begins nor ends with white space. *)
Lemma trim_ends (s : jsstring) c :
  head (trim s) = Some c ∨ last (trim s) = Some c → is_js_space c = false.
Proof.
  unfold trim. rewrite head_reverse, last_reverse. intros [Hlast|Hhead].
  - destruct (trim_start_suffix (reverse (trim_start s))) as [p Hp].
    destruct (trim_start (reverse (trim_start s))) as [|c' r] eqn:Hb; [done|].
    assert (Ha : last (reverse (trim_start s)) = Some c).
    { rewrite Hp, last_app, Hlast. done. }
    rewrite last_reverse in Ha.
    destruct (trim_start s) as [|c'' r'] eqn:Hs; [done|].
    injection Ha as ->. by eapply trim_start_head.
  - destruct (trim_start (reverse (trim_start s))) as [|c' r] eqn:Hb; [done|].
    injection Hhead as ->. by eapply trim_start_head.
Qed.

(** Trimming twice is trimming once. *)
Lemma trim_idempotent (s : jsstring) : trim (trim s) = trim s.
Proof.
  pose proof (trim_ends s) as Hends.
  set (t := trim s) in *. unfold trim.
  rewrite (trim_start_fixed t) by (intros c Hc; apply Hends; by left).
  rewrite trim_start_fixed.
  - apply reverse_involutive.
  - intros c Hc. rewrite head_reverse in Hc. apply Hends. by right.
Qed.

End TrimFacts.

(** ** The chat hook and the chat panel *)

Section ChatExtras.
Import Chat.
Variable clock : nat → Z.
Variable network : nat → Api.RequestConfig → Api.outcome ChatResponse.

(** The whole effect of one call of [sendMessage] with a message that
    is not blank. *)
Lemma sendMessage_exchange msg w :
  truthy (VStr (trim msg)) = true →
  sendMessage clock network msg w
  = let request :=
      {| message := msg;
         session_id := lit "session_" ++ lit (pretty (clock (2 + reads w))) |} in
    let r := Api.post network (lit "/chat") (chat_payload request) (api w) in
    (tt,
     {| messages :=
          messages w
          ++ [ {| id := lit (pretty (clock (reads w))); content := msg;
                  sender := user; timestamp := clock (1 + reads w);
                  msg_tools_used := None |};
               match r.1 with
               | inl resp =>
                   {| id := lit (pretty (clock (3 + reads w) + 1));
                      content := response resp; sender := assistant;
                      timestamp := clock (4 + reads w);
                      msg_tools_used := Some (tools_used resp) |}
               | inr error =>
                   {| id := lit (pretty (clock (3 + reads w) + 1));
                      content :=
                        lit "Error: "
                        ++ Api.error_text error (lit "Failed to send message");
                      sender := assistant;
                      timestamp := clock (4 + reads w);
                      msg_tools_used := None |}
               end ];
        isLoading := false;
        reads := 5 + reads w;
        api := r.2 |}).
Proof.
  intros Hmsg. unfold sendMessage. rewrite Hmsg. simpl negb. cbv iota zeta.
  unfold mbind, hook_bind, now, setMessages, setIsLoading, sendChatMessage.
  simpl.
  destruct (Api.post _ _ _ _) as [[resp|error] a]; simpl;
    by rewrite <- app_assoc.
Qed.

(** X13: When the chat call is rejected, the hook still shows the user's
    message followed by exactly one assistant message without tools and
    stops loading; the text is [Error: ] followed by the transport
    error's own message or, for every error that went through
    [handleError], by the fixed words [Failed to send message]. *)
Theorem sendMessage_failure msg w rej a :
  truthy (VStr (trim msg)) = true →
  Api.post network (lit "/chat")
    (chat_payload {| message := msg;
                     session_id := lit "session_"
                                   ++ lit (pretty (clock (2 + reads w))) |})
    (api w) = (inr rej, a) →
  ∃ u m,
    messages (sendMessage clock network msg w).2 = messages w ++ [u; m]
    ∧ isLoading (sendMessage clock network msg w).2 = false
    ∧ sender u = user ∧ content u = msg
    ∧ sender m = assistant ∧ msg_tools_used m = None
    ∧ content m
      = lit "Error: "
        ++ match rej with
           | Api.RawError e => Api.err_message e
           | Api.Structured _ => lit "Failed to send message"
           end.
Proof.
  intros Hmsg Hpost. rewrite sendMessage_exchange by done. cbv zeta.
  rewrite Hpost. simpl. eexists _, _. split; [done|].
  by destruct rej.
Qed.

(** X14: Whatever the gateway's error response says, as long as its status
    is not 401 the chat shows the same fixed text: the [detail] of the
    response does not reach the user. *)
Theorem sendMessage_error_detail_dropped msg w resp req emsg :
  truthy (VStr (trim msg)) = true →
  network (length (Api.sent (api w)))
    (Api.request_interceptor (Api.auth (api w))
       (Api.fresh Api.POST (lit "/chat")
          (chat_payload
             {| message := msg;
                session_id := lit "session_"
                              ++ lit (pretty (clock (2 + reads w))) |})))
  = Api.Failed resp req emsg →
  Api.is_401 resp = false →
  ∃ u m,
    messages (sendMessage clock network msg w).2 = messages w ++ [u; m]
    ∧ content m = lit "Error: Failed to send message"
    ∧ length (chat_requests (sendMessage clock network msg w).2)
      = S (length (chat_requests w)).
Proof.
  intros Hmsg Hnet H401. rewrite sendMessage_exchange by done. cbv zeta.
  unfold Api.post, chat_requests. rewrite client_unfold. cbv zeta.
  rewrite Hnet, H401. simpl. eexists _, _. split_and!; [done|done|].
  rewrite length_app. simpl. lia.
Qed.

(** X15: If the clock does not run backwards between the sending of a
    message and the arrival of its answer, the two messages of the
    exchange get different ids. *)
Theorem sendMessage_ids_differ msg w :
  truthy (VStr (trim msg)) = true →
  clock (reads w) ≤ clock (3 + reads w) →
  ∃ u m,
    messages (sendMessage clock network msg w).2 = messages w ++ [u; m]
    ∧ id u ≠ id m.
Proof.
  intros Hmsg Hclock. rewrite sendMessage_exchange by done. cbv zeta. simpl.
  eexists _, _. split; [done|].
  assert (Hne : lit (pretty (clock (reads w)))
                ≠ lit (pretty (clock (3 + reads w) + 1))).
  { intros Heq%lit_inj%(inj pretty). lia. }
  by destruct (Api.post _ _ _ _).1.
Qed.

(** X17: The chat panel sends nothing while the input is blank or an answer
    is awaited; otherwise it empties the input and sends the input
    without its surrounding white space: that text, which is not empty
    and neither begins nor ends with white space, is what the user's
    message shows and what every request carries. *)
Theorem chat_panel_submit (s : ChatInterface.state) :
  if negb (truthy (VStr (trim (ChatInterface.inputMessage s))))
     || isLoading (ChatInterface.chat s)
  then ChatInterface.handleSubmit clock network s = s
  else
    let s' := ChatInterface.handleSubmit clock network s in
    let sent_text := trim (ChatInterface.inputMessage s) in
    ChatInterface.inputMessage s' = []
    ∧ sent_text ≠ []
    ∧ (∀ c, head sent_text = Some c ∨ last sent_text = Some c →
            is_js_space c = false)
    ∧ (∃ u m, messages (ChatInterface.chat s')
              = messages (ChatInterface.chat s) ++ [u; m]
              ∧ sender u = user ∧ content u = sent_text)
    ∧ ∃ new, chat_requests (ChatInterface.chat s')
             = chat_requests (ChatInterface.chat s) ++ new
             ∧ new ≠ []
             ∧ Forall (λ c, get_opt (Api.body c) (lit "message")
                            = VStr sent_text) new.
Proof.
  unfold ChatInterface.handleSubmit.
  destruct (negb _ || _) eqn:Hguard; [done|].
  apply orb_false_elim in Hguard as [Hblank%negb_false_iff Hidle].
  cbv zeta. simpl.
  assert (Hmsg : truthy (VStr (trim (trim (ChatInterface.inputMessage s))))
                 = true) by (by rewrite trim_idempotent).
  rewrite sendMessage_exchange by done. cbv zeta. simpl.
  split_and!.
  - done.
  - simpl in Hblank. by apply negb_true_iff, bool_decide_eq_false in Hblank.
  - apply trim_ends.
  - eexists _, _. done.
  - unfold chat_requests, Api.post.
    set (cfg := Api.fresh _ _ _).
    destruct (client_sent network cfg (api (ChatInterface.chat s)))
      as (rest & Hsent & _ & Hrest).
    exists (Api.request_interceptor (Api.auth (api (ChatInterface.chat s))) cfg
            :: rest).
    split_and!.
    + by destruct (Api.client network cfg _) as [[??|?] ?].
    + done.
    + constructor.
      * by destruct (request_interceptor_frame
                       (Api.auth (api (ChatInterface.chat s))) cfg)
          as (_ & -> & _).
      * eapply Forall_impl; [exact Hrest|]. by intros c (_ & -> & _).
Qed.

End ChatExtras.

(** ** The registration form: validation and submission *)

Section FormExtras.
Import Form.
Variable url_parses : jsstring → bool.
Variable json_parse : jsstring → option value.
Variable network : nat → Api.RequestConfig → Api.outcome value.

Lemma blank_iff (s : jsstring) :
  negb (truthy (VStr (trim s))) = false ↔ trim s ≠ [].
Proof.
  simpl. rewrite negb_involutive. split.
  - by intros H%bool_decide_eq_false.
  - intros H. by apply bool_decide_eq_false.
Qed.

Lemma newErrors_complete (d : ServiceFormData) :
  trim (name d) ≠ [] → trim (base_url d) ≠ [] →
  url_parses (base_url d) = true → spec_missing d = false →
  newErrors url_parses d = ∅.
Proof.
  intros Hn%blank_iff Hb%blank_iff Hu Hs. unfold newErrors.
  by rewrite Hn, Hb, Hu, Hs.
Qed.

(** X18: [validateForm] passes exactly on a complete form: a name and a base
    URL that are not blank, a base URL that parses, and a description
    on file. *)
Theorem validateForm_passes_iff (w : World) :
  (validateForm url_parses w).1 = true
  ↔ trim (name (formData w)) ≠ []
    ∧ trim (base_url (formData w)) ≠ []
    ∧ url_parses (base_url (formData w)) = true
    ∧ ∃ spec, openapi_spec (formData w) = Some spec ∧ truthy spec = true.
Proof.
  unfold validateForm. simpl. rewrite bool_decide_eq_true. split.
  - intros Hsize%map_size_empty_iff. unfold newErrors in Hsize.
    destruct (spec_missing (formData w)) eqn:Hspec.
    { destruct (upload_method _); by apply insert_non_empty in Hsize. }
    destruct (negb (truthy (VStr (trim (base_url _))))) eqn:Hurl.
    { by apply insert_non_empty in Hsize. }
    destruct (url_parses _) eqn:Hparse.
    2: { by apply insert_non_empty in Hsize. }
    destruct (negb (truthy (VStr (trim (name _))))) eqn:Hname.
    { by apply insert_non_empty in Hsize. }
    split_and!; [by apply blank_iff|by apply blank_iff|done|].
    unfold spec_missing in Hspec.
    destruct (openapi_spec _) as [spec|]; [|done].
    exists spec. split; [done|]. by apply negb_false_iff.
  - intros (Hn & Hb & Hu & spec & Hspec & Htruthy).
    rewrite newErrors_complete; try done.
    unfold spec_missing. by rewrite Hspec, Htruthy.
Qed.

Lemma lit_ne (a b : string) : a ≠ b → lit a ≠ lit b.
Proof. intros Hne Heq%lit_inj. done. Qed.

Ltac form_lookup :=
  repeat (match goal with
          | |- context [if ?b then _ else _] => destruct b
          | |- context [match ?m with file => _ | text => _ end] => destruct m
          end);
  repeat (rewrite lookup_insert_ne by (by apply lit_ne));
  rewrite ?lookup_insert_eq.

(** X19: Submitting an incomplete form sends nothing and replaces the error
    map, an earlier [submit] error included, by one entry per missing
    field: [name], [base_url], and [openapi_spec] or [openapi_text]
    according to the input method chosen; the map has no other key. *)
Theorem handleSubmit_incomplete (w : World) :
  (validateForm url_parses w).1 = false →
  let w' := handleSubmit url_parses network w in
  api w' = api w ∧ formData w' = formData w
  ∧ isSubmitting w' = isSubmitting w ∧ successes w' = successes w
  ∧ errors w' ≠ ∅
  ∧ errors w' !! lit "submit" = None
  ∧ errors w' !! lit "name"
    = (if negb (truthy (VStr (trim (name (formData w)))))
       then Some (lit "Service name is required") else None)
  ∧ errors w' !! lit "base_url"
    = (if negb (truthy (VStr (trim (base_url (formData w)))))
       then Some (lit "Base URL is required")
       else if url_parses (base_url (formData w)) then None
            else Some (lit "Please enter a valid URL"))
  ∧ errors w' !! lit "openapi_spec"
    = (if spec_missing (formData w)
       then match upload_method (formData w) with
            | file => Some (lit "Please upload an OpenAPI specification file")
            | text => None
            end
       else None)
  ∧ errors w' !! lit "openapi_text"
    = (if spec_missing (formData w)
       then match upload_method (formData w) with
            | file => None
            | text => Some (lit "Please provide OpenAPI specification text")
            end
       else None)
  ∧ ∀ k, k ≠ lit "name" → k ≠ lit "base_url"
         → k ≠ lit "openapi_spec" → k ≠ lit "openapi_text"
         → errors w' !! k = None.
Proof.
  intros Hfail. unfold handleSubmit. cbv zeta.
  destruct (validateForm url_parses w) as [ok w1] eqn:Hv.
  simpl in Hfail. subst ok. simpl.
  unfold validateForm in Hv. injection Hv as Hsize <-.
  apply bool_decide_eq_false in Hsize.
  split_and!; try done.
  - intros Hempty. apply Hsize. simpl in Hempty. by rewrite Hempty.
  - unfold newErrors. simpl. by form_lookup.
  - unfold newErrors. simpl. by form_lookup.
  - unfold newErrors. simpl. by form_lookup.
  - unfold newErrors. simpl. by form_lookup.
  - unfold newErrors. simpl. by form_lookup.
  - intros k Hname Hurl Hspec Htext. unfold newErrors. simpl.
    repeat (match goal with
            | |- context [if ?b then _ else _] => destruct b
            | |- context [match ?m with file => _ | text => _ end] => destruct m
            end);
      repeat (rewrite lookup_insert_ne by done); apply lookup_empty.
Qed.

End FormExtras.

Section FormSubmission.
Import Form.
Variable url_parses : jsstring → bool.
Variable json_parse : jsstring → option value.
Variable network : nat → Api.RequestConfig → Api.outcome value.

(** The whole effect of submitting a complete form. *)
Lemma handleSubmit_complete (w : World) spec :
  trim (name (formData w)) ≠ [] → trim (base_url (formData w)) ≠ [] →
  url_parses (base_url (formData w)) = true →
  openapi_spec (formData w) = Some spec → truthy spec = true →
  handleSubmit url_parses network w
  = let r := Api.post network (lit "/register-service")
               (config_payload
                  {| cfg_name := trim (name (formData w));
                     cfg_base_url := trim (base_url (formData w));
                     cfg_openapi_spec := spec |}) (api w) in
    {| formData := formData w;
       errors := match r.1 with
                 | inl _ => ∅
                 | inr error =>
                     {[ lit "submit" :=
                          Api.error_text error (lit "Failed to register service") ]}
                 end;
       isSubmitting := false;
       api := r.2;
       successes := match r.1 with
                    | inl resp => if truthy resp then S (successes w)
                                  else successes w
                    | inr _ => successes w
                    end |}.
Proof.
  intros Hn Hb Hu Hspec Htruthy. unfold handleSubmit, validateForm.
  rewrite newErrors_complete; try done.
  2: { unfold spec_missing. by rewrite Hspec, Htruthy. }
  rewrite map_size_empty, bool_decide_eq_true_2 by done.
  cbv zeta. simpl. unfold registerService. simpl. rewrite Hspec. simpl.
  destruct (Api.post _ _ _ _) as [[resp|error] a]; simpl; [|done].
  by destruct (truthy resp).
Qed.

(** X20: Submitting a complete form ends with [isSubmitting] false and the
    form data untouched.  An answer is counted as a success once,
    unless its body is falsy, in which case nothing is reported at all;
    a rejection leaves a single error, [submit], which for every error
    that went through [handleError] is the fixed text
    [Failed to register service]. *)
Theorem handleSubmit_outcome (w : World) spec r a :
  trim (name (formData w)) ≠ [] → trim (base_url (formData w)) ≠ [] →
  url_parses (base_url (formData w)) = true →
  openapi_spec (formData w) = Some spec → truthy spec = true →
  Api.post network (lit "/register-service")
    (config_payload {| cfg_name := trim (name (formData w));
                       cfg_base_url := trim (base_url (formData w));
                       cfg_openapi_spec := spec |}) (api w) = (r, a) →
  let w' := handleSubmit url_parses network w in
  isSubmitting w' = false ∧ formData w' = formData w ∧ api w' = a
  ∧ match r with
    | inl resp =>
        errors w' = ∅
        ∧ successes w' = (if truthy resp then S (successes w) else successes w)
    | inr (Api.Structured _) =>
        errors w' = {[ lit "submit" := lit "Failed to register service" ]}
        ∧ successes w' = successes w
    | inr (Api.RawError e) =>
        errors w' = {[ lit "submit" := Api.err_message e ]}
        ∧ successes w' = successes w
    end.
Proof.
  intros Hn Hb Hu Hspec Htruthy Hpost. cbv zeta.
  rewrite (handleSubmit_complete w spec) by done. cbv zeta.
  rewrite Hpost. simpl. split_and!; try done.
  destruct r as [resp|[e|e]]; done.
Qed.

(** X21: Choosing an input method discards the description on file and the
    pasted text: a submission made right after sends nothing and asks
    for the description under the key of the method chosen. *)
Theorem chooseMethod_discards_spec (m : upload_kind) (w : World) :
  let w' := handleSubmit url_parses network (chooseMethod m w) in
  openapi_spec (formData w') = None
  ∧ openapi_text (formData w') = []
  ∧ api w' = api w
  ∧ successes w' = successes w
  ∧ errors w' !! (match m with
                  | file => lit "openapi_spec"
                  | text => lit "openapi_text"
                  end)
    = Some (match m with
            | file => lit "Please upload an OpenAPI specification file"
            | text => lit "Please provide OpenAPI specification text"
            end).
Proof.
  cbv zeta. unfold handleSubmit, validateForm.
  assert (Hsize : size (newErrors url_parses (formData (chooseMethod m w)))
                  ≠ 0%nat).
  { intros Hsize%map_size_empty_iff. unfold newErrors in Hsize. simpl in Hsize.
    destruct m; by apply insert_non_empty in Hsize. }
  rewrite bool_decide_eq_false_2 by done. simpl.
  split_and!; try done.
  unfold newErrors. simpl. destruct m; by rewrite lookup_insert_eq.
Qed.

(** X22: A text that is blank, does not parse, or parses to a description
    that fails validation does not displace the description on file:
    the text cell shows the new text, while a submission still sends
    the earlier description. *)
Theorem stale_spec_is_submitted (t : jsstring) (w : World) spec :
  trim (name (formData w)) ≠ [] → trim (base_url (formData w)) ≠ [] →
  url_parses (base_url (formData w)) = true →
  openapi_spec (formData w) = Some spec → truthy spec = true →
  (truthy (VStr (trim t)) = false
   ∨ json_parse t = None
   ∨ ∃ spec', json_parse t = Some spec'
              ∧ Api.validateOpenAPISpec spec' = false) →
  let w1 := handleTextChange json_parse t w in
  openapi_text (formData w1) = t
  ∧ openapi_spec (formData w1) = Some spec
  ∧ ∃ first rest,
      Api.sent (api (handleSubmit url_parses network w1))
      = Api.sent (api w) ++ first :: rest
      ∧ Api.body first
        = config_payload {| cfg_name := trim (name (formData w));
                            cfg_base_url := trim (base_url (formData w));
                            cfg_openapi_spec := spec |}.
Proof.
  intros Hn Hb Hu Hspec Htruthy Hbad. cbv zeta.
  assert (Hdata : formData (handleTextChange json_parse t w)
                  = {| name := name (formData w);
                       base_url := base_url (formData w);
                       openapi_spec := Some spec;
                       upload_method := upload_method (formData w);
                       openapi_text := t |}
                  ∧ api (handleTextChange json_parse t w) = api w).
  { unfold handleTextChange. rewrite <- Hspec.
    destruct Hbad as [Hblank|[Hparse|(spec' & Hparse & Hinvalid)]].
    - by rewrite Hblank.
    - rewrite Hparse. by destruct (truthy (VStr (trim t))).
    - rewrite Hparse, Hinvalid. by destruct (truthy (VStr (trim t))). }
  destruct Hdata as [Hdata Hapi]. rewrite Hdata. simpl.
  split_and!; [done|done|].
  pose proof (handleSubmit_complete (handleTextChange json_parse t w) spec)
    as Hsub.
  rewrite Hdata, Hapi in Hsub. simpl in Hsub. rewrite Hsub by done.
  simpl. unfold Api.post.
  set (cfg := Api.fresh _ _ _).
  destruct (client_sent network cfg (api w)) as (rest & Hsent & _).
  exists (Api.request_interceptor (Api.auth (api w)) cfg), rest. split.
  - by destruct (Api.client network cfg (api w)) as [[??|?] ?].
  - by destruct (request_interceptor_frame (Api.auth (api w)) cfg)
      as (_ & -> & _).
Qed.

End FormSubmission.

(** ** The validator on arbitrary input *)

Section ValidationExtras.

Lemma js_and_falsy (v : value) (b : option value) :
  truthy v = false → Some v &&> b = Some v.
Proof. intros Hv. unfold js_and. simpl. by rewrite Hv. Qed.

Lemma js_and_truthy (a b : option value) (v : value) :
  a = Some v → truthy v = true → a &&> b = b.
Proof. intros -> Hv. unfold js_and. simpl. by rewrite Hv. Qed.

(** X12: [validateOpenAPISpec] never throws, whatever value it is given: it
    returns [true] or else a falsy value, which need not be [false];
    and it rejects everything that is not an object, arrays included. *)
Theorem validateOpenAPISpec_result (spec : value) :
  (∃ v, Api.validateOpenAPISpec_value spec = Some v
        ∧ (v = VBool true ∨ truthy v = false)
        ∧ (Api.validateOpenAPISpec spec = true ↔ v = VBool true))
  ∧ ((∀ props, spec ≠ VObj props) → Api.validateOpenAPISpec spec = false).
Proof.
  split.
  - destruct (validateOpenAPISpec_total spec) as [v Hv].
    exists v. split; [done|].
    unfold Api.validateOpenAPISpec. rewrite Hv.
    destruct (truthy v) eqn:Htruthy.
    + assert (v = VBool true) as ->; [|split; [by left|done]].
      unfold Api.validateOpenAPISpec_value in Hv.
      apply js_and_true in Hv as [_ Hlast]; [|done].
      destruct (get spec (lit "paths")) as [paths|]; simplify_eq/=.
      by rewrite Htruthy.
    + split; [by right|]. split; [done|]. by intros ->.
  - intros Hnot. unfold Api.validateOpenAPISpec, Api.validateOpenAPISpec_value.
    destruct spec as [| |b|x|s|items|props]; try done.
    + destruct b; [done|]. by rewrite !js_and_falsy.
    + destruct (truthy (VNum x)) eqn:Hx.
      * rewrite (js_and_truthy (Some (VNum x)) _ (VNum x)) by done.
        by rewrite !js_and_falsy.
      * rewrite !js_and_falsy by done. by rewrite Hx.
    + destruct (truthy (VStr s)) eqn:Hs.
      * rewrite (js_and_truthy (Some (VStr s)) _ (VStr s)) by done.
        by rewrite !js_and_falsy.
      * rewrite !js_and_falsy by done. by rewrite Hs.
    + by destruct (Hnot props).
Qed.

End ValidationExtras.

(** ** Conversations, and requests before and after a refresh *)

Section ConversationFacts.
Import Chat.
Variable clock : nat → Z.
Variable network : nat → Api.RequestConfig → Api.outcome ChatResponse.

Lemma converse_snoc texts t w :
  Conversation.converse clock network (texts ++ [t]) w
  = (sendMessage clock network t (Conversation.converse clock network texts w)).2.
Proof. unfold Conversation.converse. by rewrite foldl_snoc. Qed.

(** X16: Over a series of awaited calls the transcript grows by one user
    message and one assistant message for every text that is not blank,
    in that order and nothing else; the user messages show those texts
    as they were given; and the hook is not loading at the end. *)
Theorem transcript_alternates (texts : list jsstring) (a : Keycloak.state) :
  let w := Conversation.converse clock network texts (initial a) in
  sender <$> messages w
  = (filter (λ t, Conversation.not_blank t = true) texts
     ≫= λ _, [user; assistant])
  ∧ content <$> filter (λ m, sender m = user) (messages w)
    = filter (λ t, Conversation.not_blank t = true) texts
  ∧ isLoading w = false.
Proof.
  cbv zeta. induction texts as [|t texts (IHs & IHc & IHl)] using rev_ind.
  { done. }
  rewrite converse_snoc, !filter_app, bind_app.
  rewrite !filter_cons, !filter_nil.
  unfold Conversation.not_blank in *.
  destruct (truthy (VStr (trim t))) eqn:Ht.
  - rewrite decide_True by done.
    rewrite sendMessage_exchange by done. cbv zeta.
    cbn [snd messages isLoading].
    rewrite fmap_app, filter_app, fmap_app, IHs, IHc.
    split_and!; [f_equal|f_equal|done].
    + cbn [fmap list_fmap sender mbind list_bind app].
      by destruct (Api.post _ _ _ _).1.
    + rewrite filter_cons, decide_True by done.
      rewrite filter_cons, filter_nil.
      by destruct (Api.post _ _ _ _).1.
  - rewrite decide_False by done.
    unfold sendMessage. rewrite Ht. cbn [negb snd mret hook_ret].
    by rewrite !app_nil_r.
Qed.

End ConversationFacts.

Section RefreshFacts.
Local Abbreviation client_eqn' := (@client_unfold).
Import Api.
Context {T : Type} (network : nat → RequestConfig → outcome T).

(** X9: While [logout()] has never been called, every request that starts
    without an [Authorization] header goes out with the mock token. *)
Theorem client_before_logout ops config w :
  Keycloak.Logout ∉ ops →
  auth w = Keycloak.run_all ops →
  Authorization config = None →
  ∃ new,
    sent (client network config w).2 = sent w ++ new
    ∧ Forall (λ c, Authorization c = Some (lit "Bearer mock-jwt-token")) new.
Proof.
  intros Hno Hauth Hc.
  assert (Htok : truthy_token (auth w) = Some (lit "mock-jwt-token")).
  { unfold truthy_token, Keycloak.getToken. rewrite Hauth.
    unfold Keycloak.run_all.
    rewrite foldl_run_stays_in, foldl_run_token_kept by done. done. }
  assert (Hreq : ∀ c, Authorization (request_interceptor (auth w) c)
                      = Some (lit "Bearer mock-jwt-token")).
  { intros c. unfold request_interceptor. by rewrite Htok. }
  destruct (client_sent network config w) as (rest & Hsent & _ & _).
  pose proof (client_eqn' _ network config w) as Hcl. cbv zeta in Hcl.
  destruct (network _ _) as [st d|resp req msg]; simpl in Hcl.
  { eexists. split; [by rewrite Hcl|]. by apply Forall_singleton. }
  destruct (is_401 resp && negb _) eqn:H401; simpl in Hcl.
  2: { eexists. split; [by rewrite Hcl|]. by apply Forall_singleton. }
  apply andb_prop in H401 as [_ Hfresh%negb_true_iff].
  rewrite Htok in Hcl.
  rewrite (client_retried network (set_Authorization _ _)) in Hcl by done.
  cbv zeta in Hcl. simpl in Hcl.
  eexists [_; _]. split.
  - rewrite Hcl.
    destruct (network _ (request_interceptor _ (set_Authorization _ _)));
      simpl; by rewrite <- app_assoc.
  - repeat constructor; apply Hreq.
Qed.

(** X10: The refresh changes nothing about the request: the second attempt
    after a 401 is the first request again, marked [_retry].  Its
    answer is the answer of the call, so a success on the second
    attempt hides the 401 from the caller; the facade's state is left
    alone. *)
Theorem client_retry config w r req msg token :
  _retry config = false →
  Authorization config = None →
  truthy_token (auth w) = Some token →
  network (length (sent w)) (request_interceptor (auth w) config)
  = Failed (Some r) req msg →
  resp_status r = 401 →
  client network config w
  = (match network (S (length (sent w)))
             (set_retry (request_interceptor (auth w) config)) with
     | Resolved st d => Fulfilled st d
     | Failed resp2 req2 msg2 =>
         Rejected (Structured (handleError
           {| err_config := set_retry (request_interceptor (auth w) config);
              err_response := resp2; err_request := req2;
              err_message := msg2 |}))
     end,
     {| auth := auth w;
        sent := sent w ++ [request_interceptor (auth w) config;
                           set_retry (request_interceptor (auth w) config)] |}).
Proof.
  intros Hfresh Hc Htok Hnet H401.
  rewrite (client_eqn' _ network). cbv zeta. rewrite Hnet.
  destruct (request_interceptor_frame (auth w) config) as (Hr & _).
  rewrite Hr, Hfresh. simpl. rewrite H401, bool_decide_eq_true_2 by done.
  simpl. rewrite Htok.
  rewrite client_retried by done. cbv zeta. simpl.
  assert (Hsame : request_interceptor (auth w)
                    (set_Authorization
                       (set_retry (request_interceptor (auth w) config))
                       (bearer token))
                  = set_retry (request_interceptor (auth w) config)).
  { unfold request_interceptor. rewrite Htok. by destruct config. }
  rewrite Hsame, length_app. simpl. rewrite Nat.add_1_r.
  destruct (network (S (length (sent w))) _); unfold dispatched; simpl;
    by rewrite <- app_assoc.
Qed.

End RefreshFacts.

(** ** Instances *)

(** The context of a provider whose initialisation has resumed. *)
Lemma context_token_is_current_witness :
  lit "mock-jwt-token" ≠ []
  ∧ Keycloak.getToken (AuthProvider.keycloak
                         (AuthProvider.run [AuthProvider.InitResumed]))
    = Some (lit "mock-jwt-token")
  ∧ AuthProvider.ctx_user (AuthProvider.contextValue
                             (AuthProvider.run [AuthProvider.InitResumed]))
    = Some AuthProvider.mockUser
  ∧ AuthProvider.ctx_isAuthenticated
      (AuthProvider.contextValue (AuthProvider.run [AuthProvider.InitResumed]))
    = true.
Proof.
  exact (context_token_is_current [AuthProvider.InitResumed]
           (lit "mock-jwt-token") eq_refl).
Defined.

(** The headers of a request that meets 401 twice. *)
Lemma client_authorization_header_witness :
  ∃ new,
    Api.sent (Api.client (T:=value) Examples.unauthorized Examples.list_services
                Examples.fresh_client).2
    = Api.sent Examples.fresh_client ++ new
    ∧ Forall (λ c,
        match Api.Authorization c with
        | None => Api.truthy_token (Api.auth Examples.fresh_client) = None
        | Some h => ∃ t, h = Api.bearer t ∧ t ≠ []
                         ∧ Keycloak.getToken (Api.auth Examples.fresh_client)
                           = Some t
        end) new.
Proof.
  exact (client_authorization_header (T:=value) Examples.unauthorized
           Examples.list_services Examples.fresh_client eq_refl).
Defined.

(** A request refused with 409 is sent once. *)
Lemma client_single_dispatch_witness :
  Api.client (T:=value) Scenarios.refusing Examples.list_services
    Examples.fresh_client
  = (match Scenarios.refusing (T:=value)
             (length (Api.sent Examples.fresh_client))
             (Api.request_interceptor (Api.auth Examples.fresh_client)
                Examples.list_services) with
     | Api.Resolved st d => Api.Fulfilled st d
     | Api.Failed resp req msg =>
         Api.Rejected (Api.Structured (Api.handleError
           {| Api.err_config :=
                Api.request_interceptor (Api.auth Examples.fresh_client)
                  Examples.list_services;
              Api.err_response := resp; Api.err_request := req;
              Api.err_message := msg |}))
     end,
     {| Api.auth := Api.auth Examples.fresh_client;
        Api.sent := Api.sent Examples.fresh_client
                    ++ [Api.request_interceptor (Api.auth Examples.fresh_client)
                          Examples.list_services] |}).
Proof.
  apply (client_single_dispatch (T:=value) Scenarios.refusing
           Examples.list_services Examples.fresh_client).
  intros r req msg [= <- _ _]. discriminate.
Defined.

(** A 401 met after [logout()] and [login()]. *)
Lemma client_after_logout_witness :
  Api.sent (Api.client (T:=value) Examples.unauthorized
              (Api.fresh Api.GET (lit "/services") VUndefined)
              Scenarios.client_logged_in_again).2
  = Api.sent Scenarios.client_logged_in_again
    ++ [Api.fresh Api.GET (lit "/services") VUndefined]
  ∧ ∀ r req msg,
      Examples.unauthorized (T:=value)
        (length (Api.sent Scenarios.client_logged_in_again))
        (Api.fresh Api.GET (lit "/services") VUndefined)
      = Api.Failed (Some r) req msg →
      Api.resp_status r = 401 →
      (Api.client (T:=value) Examples.unauthorized
         (Api.fresh Api.GET (lit "/services") VUndefined)
         Scenarios.client_logged_in_again).1
      = Api.Rejected (Api.RawError
          {| Api.err_config :=
               Api.set_retry (Api.fresh Api.GET (lit "/services") VUndefined);
             Api.err_response := Some r; Api.err_request := req;
             Api.err_message := msg |})
      ∧ Keycloak.isAuthenticated
          (Api.auth (Api.client (T:=value) Examples.unauthorized
                       (Api.fresh Api.GET (lit "/services") VUndefined)
                       Scenarios.client_logged_in_again).2) = true
      ∧ Keycloak.has_token
          (Api.auth (Api.client (T:=value) Examples.unauthorized
                       (Api.fresh Api.GET (lit "/services") VUndefined)
                       Scenarios.client_logged_in_again).2) = false.
Proof.
  apply (client_after_logout (T:=value) Examples.unauthorized
           Scenarios.logged_in_again Api.GET (lit "/services") VUndefined
           Scenarios.client_logged_in_again).
  - left.
  - reflexivity.
Defined.

(** A chat message the gateway refuses. *)
Lemma sendMessage_failure_witness :
  ∃ u m,
    Chat.messages (Chat.sendMessage Examples.ticking Scenarios.refusing
                     (lit "hi") (Chat.initial Keycloak.initial)).2
    = [] ++ [u; m]
    ∧ Chat.isLoading (Chat.sendMessage Examples.ticking Scenarios.refusing
                        (lit "hi") (Chat.initial Keycloak.initial)).2 = false
    ∧ Chat.sender u = Chat.user ∧ Chat.content u = lit "hi"
    ∧ Chat.sender m = Chat.assistant ∧ Chat.msg_tools_used m = None
    ∧ Chat.content m = lit "Error: " ++ lit "Failed to send message".
Proof.
  refine (sendMessage_failure Examples.ticking Scenarios.refusing (lit "hi")
            (Chat.initial Keycloak.initial) (Api.Structured _) _ eq_refl _).
  reflexivity.
Defined.

Lemma sendMessage_error_detail_dropped_witness :
  ∃ u m,
    Chat.messages (Chat.sendMessage Examples.ticking Scenarios.refusing
                     (lit "hi") (Chat.initial Keycloak.initial)).2
    = [] ++ [u; m]
    ∧ Chat.content m = lit "Error: Failed to send message"
    ∧ length (Chat.chat_requests
                (Chat.sendMessage Examples.ticking Scenarios.refusing
                   (lit "hi") (Chat.initial Keycloak.initial)).2)
      = 1%nat.
Proof.
  refine (sendMessage_error_detail_dropped Examples.ticking Scenarios.refusing
            (lit "hi") (Chat.initial Keycloak.initial) _ _ _ eq_refl _ _);
    reflexivity.
Defined.

Lemma sendMessage_ids_differ_witness :
  ∃ u m,
    Chat.messages (Chat.sendMessage Examples.ticking Examples.answering
                     (lit "hi") (Chat.initial Keycloak.initial)).2
    = [] ++ [u; m]
    ∧ Chat.id u ≠ Chat.id m.
Proof.
  apply (sendMessage_ids_differ Examples.ticking Examples.answering (lit "hi")
           (Chat.initial Keycloak.initial)).
  - reflexivity.
  - vm_compute. discriminate.
Defined.

(** The empty form, submitted. *)
Lemma handleSubmit_incomplete_witness :
  Form.api (Form.handleSubmit Scenarios.any_url Examples.accepting
              (Form.initial Examples.fresh_client))
  = Examples.fresh_client
  ∧ Form.errors (Form.handleSubmit Scenarios.any_url Examples.accepting
                   (Form.initial Examples.fresh_client)) !! lit "name"
    = Some (lit "Service name is required")
  ∧ ∀ k, k ≠ lit "name" → k ≠ lit "base_url"
         → k ≠ lit "openapi_spec" → k ≠ lit "openapi_text"
         → Form.errors (Form.handleSubmit Scenarios.any_url Examples.accepting
                          (Form.initial Examples.fresh_client)) !! k
           = None.
Proof.
  destruct (handleSubmit_incomplete Scenarios.any_url Examples.accepting
              (Form.initial Examples.fresh_client) eq_refl)
    as (Hapi & _ & _ & _ & _ & _ & Hname & _ & _ & _ & Hrest).
  split; [exact Hapi|]. split; [exact Hname|exact Hrest].
Defined.

(** The form of [Scenarios.form_ready], accepted by the gateway. *)
Lemma handleSubmit_outcome_witness :
  Form.isSubmitting (Form.handleSubmit Scenarios.any_url Examples.accepting
                       Scenarios.form_ready) = false
  ∧ Form.formData (Form.handleSubmit Scenarios.any_url Examples.accepting
                     Scenarios.form_ready)
    = Form.formData Scenarios.form_ready
  ∧ Form.api (Form.handleSubmit Scenarios.any_url Examples.accepting
                Scenarios.form_ready)
    = {| Api.auth := Keycloak.initial; Api.sent := [Examples.users_request] |}
  ∧ Form.errors (Form.handleSubmit Scenarios.any_url Examples.accepting
                   Scenarios.form_ready) = ∅
  ∧ Form.successes (Form.handleSubmit Scenarios.any_url Examples.accepting
                      Scenarios.form_ready) = 1%nat.
Proof.
  refine (handleSubmit_outcome Scenarios.any_url Examples.accepting
            Scenarios.form_ready Examples.spec_without_paths
            (inl (VObj [(lit "message", VStr (lit "registered"))])) _
            _ _ eq_refl eq_refl eq_refl _);
    [vm_compute; discriminate|vm_compute; discriminate|reflexivity].
Defined.

(** A text that does not parse, typed over a description on file. *)
Lemma stale_spec_is_submitted_witness :
  Form.openapi_text (Form.formData
     (Form.handleTextChange Scenarios.parse_braces (lit "{") Scenarios.form_ready))
  = lit "{"
  ∧ Form.openapi_spec (Form.formData
       (Form.handleTextChange Scenarios.parse_braces (lit "{")
          Scenarios.form_ready))
    = Some Examples.spec_without_paths
  ∧ ∃ first rest,
      Api.sent (Form.api
        (Form.handleSubmit Scenarios.any_url Examples.accepting
           (Form.handleTextChange Scenarios.parse_braces (lit "{")
              Scenarios.form_ready)))
      = Api.sent (Form.api Scenarios.form_ready) ++ first :: rest
      ∧ Api.body first
        = Form.config_payload
            {| Form.cfg_name := trim (Form.name (Form.formData Scenarios.form_ready));
               Form.cfg_base_url :=
                 trim (Form.base_url (Form.formData Scenarios.form_ready));
               Form.cfg_openapi_spec := Examples.spec_without_paths |}.
Proof.
  apply (stale_spec_is_submitted Scenarios.any_url Scenarios.parse_braces
           Examples.accepting (lit "{") Scenarios.form_ready
           Examples.spec_without_paths).
  - vm_compute. discriminate.
  - vm_compute. discriminate.
  - reflexivity.
  - reflexivity.
  - reflexivity.
  - right. left. reflexivity.
Defined.

(** A request made by the freshly loaded client. *)
Lemma client_before_logout_witness :
  ∃ new,
    Api.sent (Api.client (T:=value) Examples.accepting Examples.list_services
                Examples.fresh_client).2
    = Api.sent Examples.fresh_client ++ new
    ∧ Forall (λ c, Api.Authorization c = Some (lit "Bearer mock-jwt-token")) new.
Proof.
  apply (client_before_logout (T:=value) Examples.accepting [Keycloak.Login]
           Examples.list_services Examples.fresh_client).
  - by intros ?%list_elem_of_singleton.
  - reflexivity.
  - reflexivity.
Defined.

(** A request that meets 401 on both attempts. *)
Lemma client_retry_witness :
  Api.client (T:=value) Examples.unauthorized Examples.list_services
    Examples.fresh_client
  = (Api.Rejected (Api.Structured (Api.handleError
       {| Api.err_config :=
            Api.set_retry (Api.request_interceptor Keycloak.initial
                             Examples.list_services);
          Api.err_response := Some Examples.not_authenticated;
          Api.err_request := true;
          Api.err_message := lit "Request failed with status code 401" |})),
     {| Api.auth := Keycloak.initial;
        Api.sent :=
          [] ++ [Api.request_interceptor Keycloak.initial Examples.list_services;
                 Api.set_retry (Api.request_interceptor Keycloak.initial
                                  Examples.list_services)] |}).
Proof.
  exact (client_retry (T:=value) Examples.unauthorized Examples.list_services
           Examples.fresh_client Examples.not_authenticated true
           (lit "Request failed with status code 401") (lit "mock-jwt-token")
           eq_refl eq_refl eq_refl eq_refl eq_refl).
Defined.
